(** * elbow: transforms, density library and elementary distributions

    A shallow embedding of [elbow/transforms.py], [elbow/util/dists.py] and
    [elbow/elementary.py], and the properties of the specification that
    concern them.

    Numbers.  The entries of a TensorFlow tensor are modelled by [num]:
    a finite entry is a real number and arithmetic on finite entries is
    exact; the three special values of IEEE 754 (the two infinities and
    NaN) are kept, with the standard rules for producing and propagating
    them ([log 0 = -inf], [inf - inf = NaN], [0 * NaN = NaN], ...).
    Rounding, overflow of finite results and signed zeros are not
    modelled.

    Python.  A call either returns a value or raises: [result].  Keyword
    arguments are an association list; class attributes that the source
    reads through names are resolved through explicit scopes. *)

From Stdlib Require Import String Reals Lra ZArith Lia Bool List.
Import ListNotations.

Local Open Scope R_scope.

(* ================================================================== *)
(** * Numbers *)
(* ================================================================== *)

Inductive num : Type :=
| Fin (r : R)
| PInf
| NInf
| NaN.

(** Three-way comparison of two reals. *)
Definition Rcmp (x y : R) : comparison :=
  match total_order_T x y with
  | inleft (left _) => Lt
  | inleft (right _) => Eq
  | inright _ => Gt
  end.

(** The infinity that has the sign of a comparison with zero; a zero
    operand gives NaN ([0 * inf], [0 / 0]). *)
Definition inf_of_sign (c : comparison) : num :=
  match c with
  | Gt => PInf
  | Lt => NInf
  | Eq => NaN
  end.


Definition fneg (a : num) : num :=
  match a with
  | Fin x => Fin (- x)
  | PInf => NInf
  | NInf => PInf
  | NaN => NaN
  end.

Definition fadd (a b : num) : num :=
  match a, b with
  | NaN, _ | _, NaN => NaN
  | Fin x, Fin y => Fin (x + y)
  | PInf, NInf | NInf, PInf => NaN
  | PInf, _ | _, PInf => PInf
  | NInf, _ | _, NInf => NInf
  end.

Definition fsub (a b : num) : num := fadd a (fneg b).

Definition fmul (a b : num) : num :=
  match a, b with
  | NaN, _ | _, NaN => NaN
  | Fin x, Fin y => Fin (x * y)
  | Fin x, PInf | PInf, Fin x => inf_of_sign (Rcmp x 0)
  | Fin x, NInf | NInf, Fin x => inf_of_sign (Rcmp 0 x)
  | PInf, PInf | NInf, NInf => PInf
  | PInf, NInf | NInf, PInf => NInf
  end.

Definition fdiv (a b : num) : num :=
  match a, b with
  | NaN, _ | _, NaN => NaN
  | Fin x, Fin y =>
      match Rcmp y 0 with
      | Eq => inf_of_sign (Rcmp x 0)
      | _ => Fin (x / y)
      end
  | Fin _, PInf | Fin _, NInf => Fin 0
  | PInf, Fin y => match Rcmp y 0 with Lt => NInf | _ => PInf end
  | NInf, Fin y => match Rcmp y 0 with Lt => PInf | _ => NInf end
  | _, _ => NaN
  end.

Definition flog (a : num) : num :=
  match a with
  | Fin x =>
      match Rcmp x 0 with
      | Gt => Fin (ln x)
      | Eq => NInf
      | Lt => NaN
      end
  | PInf => PInf
  | NInf => NaN
  | NaN => NaN
  end.

Definition fexp (a : num) : num :=
  match a with
  | Fin x => Fin (exp x)
  | PInf => PInf
  | NInf => Fin 0
  | NaN => NaN
  end.

Definition fsqrt (a : num) : num :=
  match a with
  | Fin x =>
      match Rcmp x 0 with
      | Lt => NaN
      | _ => Fin (sqrt x)
      end
  | PInf => PInf
  | NInf => NaN
  | NaN => NaN
  end.

Definition fsquare (a : num) : num := fmul a a.

Definition fmax (a b : num) : num :=
  match a, b with
  | NaN, _ | _, NaN => NaN
  | PInf, _ | _, PInf => PInf
  | NInf, c | c, NInf => c
  | Fin x, Fin y => Fin (Rmax x y)
  end.

Definition fmin (a b : num) : num :=
  match a, b with
  | NaN, _ | _, NaN => NaN
  | NInf, _ | _, NInf => NInf
  | PInf, c | c, PInf => c
  | Fin x, Fin y => Fin (Rmin x y)
  end.

(** [tf.clip_by_value] on one entry, with Python numbers as bounds:
    [minimum(maximum(t, lo), hi)]. *)
Definition fclip (lo hi : R) (a : num) : num :=
  fmin (fmax a (Fin lo)) (Fin hi).

(* ================================================================== *)
(** * Python values, exceptions and calls *)
(* ================================================================== *)

Inductive exn : Type :=
| NameError (name : string)
| NotImplementedError
| TypeError
| ValueError
| KeyError (key : string)
| AttributeError (name : string)
| AssertionError
| Exception (msg : string).

Inductive result (A : Type) : Type :=
| Ok (a : A)
| Raise (e : exn).

Arguments Ok {A} a.
Arguments Raise {A} e.

Definition bind {A B : Type} (m : result A) (k : A -> result B) : result B :=
  match m with
  | Ok a => k a
  | Raise e => Raise e
  end.

Declare Scope py_scope.
Delimit Scope py_scope with py.
Notation "x <- m ;; k" := (bind m (fun x => k))
  (at level 61, m at next level, right associativity) : py_scope.
Notation "' pat <- m ;; k" := (bind m (fun x => match x with pat => k end))
  (at level 61, pat pattern, m at next level, right associativity) : py_scope.
Local Open Scope py_scope.

Fixpoint mapM {A B : Type} (f : A -> result B) (l : list A) : result (list B) :=
  match l with
  | [] => Ok []
  | a :: l' => b <- f a ;; bs <- mapM f l' ;; Ok (b :: bs)
  end.

(** The Python objects that are passed as flags. *)
Inductive pyval : Type :=
| PyNone
| PyBool (b : bool)
| PyInt (z : Z)
| PyObj.   (* a module, class or function object *)

(** Truth value of an object in an [if]. *)
Definition truthy (v : pyval) : bool :=
  match v with
  | PyNone => false
  | PyBool b => b
  | PyInt z => negb (Z.eqb z 0)
  | PyObj => true
  end.

(** The numbers among these objects; a boolean counts as 0 or 1. *)
Definition int_of (v : pyval) : option Z :=
  match v with
  | PyBool b => Some (if b then 1 else 0)%Z
  | PyInt z => Some z
  | PyNone | PyObj => None
  end.

(** [a * b] on flags: the product of two booleans is an [int]. *)
Definition py_mul (a b : pyval) : result pyval :=
  match int_of a, int_of b with
  | Some x, Some y => Ok (PyInt (x * y))
  | _, _ => Raise TypeError
  end.

(** [a == b] on flags: [True == 1] holds. *)
Definition py_eq (a b : pyval) : bool :=
  match int_of a, int_of b with
  | Some x, Some y => Z.eqb x y
  | _, _ =>
      match a, b with
      | PyNone, PyNone | PyObj, PyObj => true
      | _, _ => false
      end
  end.

(** Keyword arguments of a call, in the order given. *)
Definition kwargs : Type := list (string * pyval).

Fixpoint kw_find (name : string) (kw : kwargs) : option pyval :=
  match kw with
  | [] => None
  | (k, v) :: kw' => if String.eqb k name then Some v else kw_find name kw'
  end.

(** A parameter with a default value. *)
Definition kw_get (name : string) (default : pyval) (kw : kwargs) : pyval :=
  match kw_find name kw with
  | Some v => v
  | None => default
  end.

(** A function without [**kwargs] refuses the keywords it does not name. *)
Definition kw_only (allowed : list string) (kw : kwargs) : result unit :=
  if forallb (fun p => existsb (String.eqb (fst p)) allowed) kw
  then Ok tt else Raise TypeError.

(** Name resolution inside a function body: the local names first, then
    the names bound at module level. *)
Definition lookup_name (locals globals : list (string * pyval)) (name : string)
  : result pyval :=
  match kw_find name locals with
  | Some v => Ok v
  | None =>
      match kw_find name globals with
      | Some v => Ok v
      | None => Raise (NameError name)
      end
  end.

(* ================================================================== *)
(** * Tensors and the TensorFlow operations the source uses *)
(* ================================================================== *)

(** A tensor of rank 0, 1 or 2 with entries in [A]; a matrix is the list
    of its rows. *)
Inductive tensor_of (A : Type) : Type :=
| Scalar (v : A)
| Vector (l : list A)
| Matrix (rows : list (list A)).

Arguments Scalar {A} v.
Arguments Vector {A} l.
Arguments Matrix {A} rows.

Definition tensor : Type := tensor_of num.

(** A tuple of dimensions. *)
Definition shape : Type := list nat.

Definition tfmap {A B : Type} (f : A -> B) (t : tensor_of A) : tensor_of B :=
  match t with
  | Scalar v => Scalar (f v)
  | Vector l => Vector (map f l)
  | Matrix rows => Matrix (map (map f) rows)
  end.

(** Elementwise application, also of an operation with a Python number. *)
Definition tmap (f : num -> num) (t : tensor) : tensor := tfmap f t.

(** Broadcasting along one axis: equal lengths pair up, a length of one
    is repeated, anything else is a shape error. *)
Fixpoint zipM {A B C : Type} (f : A -> B -> result C) (l1 : list A) (l2 : list B)
  : result (list C) :=
  match l1, l2 with
  | [], [] => Ok []
  | a :: l1', b :: l2' => c <- f a b ;; cs <- zipM f l1' l2' ;; Ok (c :: cs)
  | _, _ => Raise ValueError
  end.

Definition bzip {A B C : Type} (f : A -> B -> result C) (l1 : list A) (l2 : list B)
  : result (list C) :=
  if Nat.eqb (List.length l1) (List.length l2) then zipM f l1 l2
  else match l1, l2 with
       | [a], _ => mapM (f a) l2
       | _, [b] => mapM (fun a => f a b) l1
       | _, _ => Raise ValueError
       end.

Definition pure2 (f : num -> num -> num) (a b : num) : result num := Ok (f a b).

(** Elementwise binary operation on two tensors, with broadcasting. *)
Definition tbin (f : num -> num -> num) (a b : tensor) : result tensor :=
  match a, b with
  | Scalar x, _ => Ok (tmap (f x) b)
  | _, Scalar y => Ok (tmap (fun x => f x y) a)
  | Vector l1, Vector l2 => l <- bzip (pure2 f) l1 l2 ;; Ok (Vector l)
  | Matrix r1, Matrix r2 => r <- bzip (bzip (pure2 f)) r1 r2 ;; Ok (Matrix r)
  | Vector l1, Matrix r2 => r <- bzip (bzip (pure2 f)) [l1] r2 ;; Ok (Matrix r)
  | Matrix r1, Vector l2 => r <- bzip (bzip (pure2 f)) r1 [l2] ;; Ok (Matrix r)
  end.

Definition tadd := tbin fadd.
Definition tsub := tbin fsub.
Definition tmul := tbin fmul.
Definition tdiv := tbin fdiv.

Definition sum_list (l : list num) : num := fold_right fadd (Fin 0) l.

(** The maximum of no entries is the identity of the maximum. *)
Definition max_list (l : list num) : num := fold_right fmax NInf l.

(** [tf.reduce_sum(t)]: the sum of all entries, a scalar. *)
Definition reduce_sum (t : tensor) : num :=
  match t with
  | Scalar v => v
  | Vector l => sum_list l
  | Matrix rows => sum_list (map sum_list rows)
  end.

(** [tf.reduce_sum(t, axis=1)] and [tf.reduce_max(t, axis=1)]: axis 1
    exists in a matrix only. *)
Definition reduce_axis1 (g : list num -> num) (t : tensor) : result tensor :=
  match t with
  | Matrix rows => Ok (Vector (map g rows))
  | _ => Raise ValueError
  end.

Definition reduce_sum_axis1 := reduce_axis1 sum_list.
Definition reduce_max_axis1 := reduce_axis1 max_list.

(** [tf.expand_dims(t, axis=1)]. *)
Definition expand_dims1 (t : tensor) : result tensor :=
  match t with
  | Vector l => Ok (Matrix (map (fun v => [v]) l))
  | _ => Raise ValueError
  end.

(** [tf.transpose] of a matrix given by its rows. *)
Fixpoint transpose_rows (ncols : nat) (rows : list (list num)) : list (list num) :=
  match ncols with
  | O => []
  | S k => map (fun r => hd NaN r) rows
           :: transpose_rows k (map (fun r => tl r) rows)
  end.

Definition transpose (t : tensor) : tensor :=
  match t with
  | Matrix rows =>
      Matrix (transpose_rows (match rows with [] => 0 | r :: _ => List.length r end) rows)
  | _ => t
  end.

(** [extract_shape]: the static shape of a tensor. *)
Definition extract_shape (t : tensor) : shape :=
  match t with
  | Scalar _ => []
  | Vector l => [List.length l]
  | Matrix rows => [List.length rows; match rows with [] => 0%nat | r :: _ => List.length r end]
  end.

(** [tf.clip_by_value(t, lo, hi)]. *)
Definition clip_by_value (t : tensor) (lo hi : R) : tensor := tmap (fclip lo hi) t.

(** The tensor with finite entries that holds the given reals. *)
Definition lift (x : tensor_of R) : tensor := tfmap Fin x.

(** The entries of a tensor, row by row. *)
Definition entries {A : Type} (t : tensor_of A) : list A :=
  match t with
  | Scalar v => [v]
  | Vector l => l
  | Matrix rows => concat rows
  end.

(* ================================================================== *)
(** * elbow/util/dists.py *)
(* ================================================================== *)

(** An optional argument: [None] or a tensor. *)
Definition need (o : option tensor) : result tensor :=
  match o with
  | Some t => Ok t
  | None => Raise TypeError
  end.

Definition gaussian_log_density (x : tensor) (mean stddev variance : option tensor)
  : result tensor :=
  variance <- match variance with
              | None => s <- need stddev ;; tmul s s
              | Some v => Ok v
              end ;;
  r <- match mean with
       | None => Ok x
       | Some m => tsub x m
       end ;;
  rr <- tmul r r ;;
  z <- tdiv rr variance ;;
  tsub (tmap (fmul (Fin (-0.5))) z)
       (tmap (fmul (Fin 0.5)) (tmap flog (tmap (fmul (Fin (2 * PI))) variance))).

Definition gaussian_cross_entropy (mean_p variance_p mean_q variance_q : tensor)
  : result tensor :=
  gaussian_lp <- gaussian_log_density mean_p (Some mean_q) None (Some variance_q) ;;
  correction <- tdiv (tmap (fmul (Fin (-0.5))) variance_p) variance_q ;;
  s <- tadd gaussian_lp correction ;;
  Ok (tmap fneg s).

Definition gaussian_entropy (stddev variance : option tensor) : result num :=
  variance <- match variance with
              | None => s <- need stddev ;; tmul s s
              | Some v => Ok v
              end ;;
  Ok (reduce_sum
        (tmap (fun v => fmul (Fin 0.5) (fadd (Fin (1 + ln (2 * PI))) (flog v)))
              variance)).

Definition one_minus (t : tensor) : tensor := tmap (fsub (Fin 1)) t.

Definition bernoulli_entropy (p : tensor) (cross_q : option tensor) (clip_finite : pyval)
  : result tensor :=
  let cross_q := match cross_q with None => p | Some q => q end in
  let lq := if truthy clip_finite
            then tmap flog (clip_by_value cross_q 1e-37 1)
            else tmap flog cross_q in
  let lq1 := if truthy clip_finite
             then tmap flog (clip_by_value (one_minus cross_q) 1e-37 1)
             else tmap flog (one_minus cross_q) in
  a <- tmul (tmap fneg p) lq ;;
  b <- tmul (one_minus p) lq1 ;;
  tsub a b.

Definition bernoulli_kl (p q : tensor) (clip_finite : pyval) : result tensor :=
  let lp := if truthy clip_finite
            then tmap flog (clip_by_value p 1e-37 1)
            else tmap flog p in
  let lp1 := if truthy clip_finite
             then tmap flog (clip_by_value (one_minus p) 1e-37 1)
             else tmap flog (one_minus p) in
  let lq := if truthy clip_finite
            then tmap flog (clip_by_value q 1e-37 1)
            else tmap flog p in
  let lq1 := if truthy clip_finite
             then tmap flog (clip_by_value (one_minus q) 1e-37 1)
             else tmap flog (one_minus p) in
  d <- tsub lp lq ;;
  a <- tmul p d ;;
  d1 <- tsub lp1 lq1 ;;
  b <- tmul (one_minus p) d1 ;;
  tadd a b.

(* ================================================================== *)
(** * elbow/transforms.py: the transform classes *)
(* ================================================================== *)

(** What a [transform] or [inverse] call returns: the tensor alone, or
    the pair of the tensor and the log Jacobian determinant. *)
Inductive tout : Type :=
| Plain (t : tensor)
| WithJac (t : tensor) (log_jacobian : num).

(** A transform class: never instantiated, all methods are class
    methods. *)
Record Transform : Type := mkTransform {
  transform : tensor -> kwargs -> result tout;
  inverse : tensor -> kwargs -> result tout;
  output_shape : shape -> result shape;
  input_shape : shape -> result shape;
  is_structural : result pyval
}.

Definition flag_return_log_jac (kw : kwargs) : pyval :=
  kw_get "return_log_jac" (PyBool false) kw.
Definition flag_clip_finite (kw : kwargs) : pyval :=
  kw_get "clip_finite" (PyBool true) kw.

(** The names bound at module level in transforms.py once it is loaded
    (no builtin is called [clip_finite]). *)
Definition module_globals : list (string * pyval) :=
  map (fun n => (n, PyObj))
    ["print_function"; "np"; "tf"; "shapes_equal"; "shape_is_scalar";
     "extract_shape"; "ConditionalDistribution"; "DeterministicTransform";
     "UnaryTransform"; "TransformedDistribution"; "Transform";
     "SelfInverseTransform"; "Logit"; "RowNormalize"; "UnitColumn";
     "RowNormalize1"; "Exp"; "Log1Exp"; "Square"; "Reciprocal"; "Transpose";
     "invert_transform"; "chain_transforms"; "Sqrt"; "Log"; "Reciprocal_Sqrt";
     "Reciprocal_Square"; "Exp_Reciprocal"; "ColNormalize1"; "ColNormalize";
     "Simplex1"; "Simplex1Col"; "Simplex_Raw"; "Simplex_Raw_Col"; "Simplex";
     "SimplexCol"]%string.

(** ** class Transform *)

Definition Transform_transform (x : tensor) (kw : kwargs) : result tout :=
  Raise NotImplementedError.
Definition Transform_inverse (transformed : tensor) (kw : kwargs) : result tout :=
  Raise NotImplementedError.
Definition Transform_output_shape (input_shape : shape) : result shape := Ok input_shape.
Definition Transform_input_shape (output_shape : shape) : result shape := Ok output_shape.
Definition Transform_is_structural : result pyval := Ok (PyBool false).

(** ** class Logit *)

Definition Logit_transform (x : tensor) (kw : kwargs) : result tout :=
  let clip_finite := flag_clip_finite kw in
  let x := if truthy clip_finite then clip_by_value x (-88) 88 else x in
  let transformed := tmap (fun v => fdiv (Fin 1) (fadd (Fin 1) (fexp (fneg v)))) x in
  if truthy (flag_return_log_jac kw) then
    jacobian <- tmul transformed (one_minus transformed) ;;
    let jacobian := if truthy clip_finite
                    then clip_by_value jacobian 1e-45 1e38 else jacobian in
    Ok (WithJac transformed (reduce_sum (tmap flog jacobian)))
  else Ok (Plain transformed).

Definition Logit_inverse (transformed : tensor) (kw : kwargs) : result tout :=
  let return_log_jac := flag_return_log_jac kw in
  let x := tmap (fun v => flog (fsub (fdiv (Fin 1) v) (Fin 1))) transformed in
  if truthy return_log_jac then
    jacobian <- tmul transformed (one_minus transformed) ;;
    clip_finite <- lookup_name
                     [("cls", PyObj); ("transformed", PyObj);
                      ("return_log_jac", return_log_jac); ("kwargs", PyObj);
                      ("x", PyObj); ("jacobian", PyObj)]%string
                     module_globals "clip_finite" ;;
    let jacobian := if truthy clip_finite
                    then clip_by_value jacobian 1e-45 1e38 else jacobian in
    Ok (WithJac x (fneg (reduce_sum (tmap flog jacobian))))
  else Ok (Plain x).

Definition Logit : Transform :=
  mkTransform Logit_transform Logit_inverse
              Transform_output_shape Transform_input_shape Transform_is_structural.

(** ** class RowNormalize *)

Definition RowNormalize_transform (x_positive : tensor) (kw : kwargs) : result tout :=
  '(k, Z) <- match x_positive with
             | Matrix rows =>
                 s <- reduce_sum_axis1 x_positive ;;
                 Z <- expand_dims1 s ;;
                 Ok (nth 1 (extract_shape x_positive) 0%nat, Z)
             | Vector l => Ok (List.length l, Scalar (reduce_sum x_positive))
             | Scalar _ => Raise ValueError
             end ;;
  transformed <- tdiv x_positive Z ;;
  if truthy (flag_return_log_jac kw) then
    Ok (WithJac transformed (fmul (Fin (- INR k)) (reduce_sum (tmap flog Z))))
  else Ok (Plain transformed).

Definition RowNormalize : Transform :=
  mkTransform RowNormalize_transform Transform_inverse
              Transform_output_shape Transform_input_shape Transform_is_structural.

(** ** class Exp *)

Definition Exp_transform (x : tensor) (kw : kwargs) : result tout :=
  let x := if truthy (flag_clip_finite kw) then clip_by_value x (-88) 88 else x in
  let transformed := tmap fexp x in
  if truthy (flag_return_log_jac kw)
  then Ok (WithJac transformed (reduce_sum x))
  else Ok (Plain transformed).

Definition Exp_inverse (transformed : tensor) (kw : kwargs) : result tout :=
  let transformed := if truthy (flag_clip_finite kw)
                     then clip_by_value transformed 1e-45 1e38 else transformed in
  let x := tmap flog transformed in
  if truthy (flag_return_log_jac kw)
  then Ok (WithJac x (fneg (reduce_sum x)))
  else Ok (Plain x).

Definition Exp : Transform :=
  mkTransform Exp_transform Exp_inverse
              Transform_output_shape Transform_input_shape Transform_is_structural.

(** ** class Log1Exp *)

Definition Log1Exp_transform (x : tensor) (kw : kwargs) : result tout :=
  let x := if truthy (flag_clip_finite kw) then clip_by_value x (-88) 88 else x in
  let transformed := tmap (fun v => flog (fadd (Fin 1) (fexp v))) x in
  if truthy (flag_return_log_jac kw) then
    d <- tsub x transformed ;;
    Ok (WithJac transformed (reduce_sum d))
  else Ok (Plain transformed).

Definition Log1Exp_inverse (transformed : tensor) (kw : kwargs) : result tout :=
  let transformed := if truthy (flag_clip_finite kw)
                     then clip_by_value transformed 1e-45 1e38 else transformed in
  let x := tmap (fun v => flog (fsub (fexp v) (Fin 1))) transformed in
  if truthy (flag_return_log_jac kw) then
    d <- tsub transformed x ;;
    Ok (WithJac x (reduce_sum d))
  else Ok (Plain x).

Definition Log1Exp : Transform :=
  mkTransform Log1Exp_transform Log1Exp_inverse
              Transform_output_shape Transform_input_shape Transform_is_structural.

(** ** class Square *)

Definition Square_transform (x : tensor) (kw : kwargs) : result tout :=
  let transformed := tmap fsquare x in
  if truthy (flag_return_log_jac kw)
  then Ok (WithJac transformed (fadd (reduce_sum (tmap flog x)) (Fin (ln 2))))
  else Ok (Plain transformed).

Definition Square_inverse (transformed : tensor) (kw : kwargs) : result tout :=
  let x := tmap fsqrt transformed in
  if truthy (flag_return_log_jac kw) then
    let jacobian := tmap (fdiv (Fin 0.5)) x in
    Ok (WithJac x (reduce_sum (tmap flog jacobian)))
  else Ok (Plain x).

Definition Square : Transform :=
  mkTransform Square_transform Square_inverse
              Transform_output_shape Transform_input_shape Transform_is_structural.

(** ** class SelfInverseTransform: [inverse] and [input_shape] call the
    subclass's [transform] and [output_shape]. *)

Definition SelfInverseTransform
    (cls_transform : tensor -> kwargs -> result tout)
    (cls_output_shape : shape -> result shape)
    (cls_is_structural : result pyval) : Transform :=
  mkTransform cls_transform cls_transform
              cls_output_shape cls_output_shape cls_is_structural.

(** ** class Reciprocal *)

Definition Reciprocal_transform (x : tensor) (kw : kwargs) : result tout :=
  let x := if truthy (flag_clip_finite kw) then clip_by_value x 1e-38 1e38 else x in
  let nlogx := tmap (fun v => fneg (flog v)) x in
  let transformed := tmap fexp nlogx in
  if truthy (flag_return_log_jac kw)
  then Ok (WithJac transformed (fmul (Fin 2) (reduce_sum nlogx)))
  else Ok (Plain transformed).

Definition Reciprocal : Transform :=
  SelfInverseTransform Reciprocal_transform Transform_output_shape
                       Transform_is_structural.

(** ** class Transpose *)

Definition Transpose_transform (x : tensor) (kw : kwargs) : result tout :=
  _ <- kw_only ["return_log_jac"%string] kw ;;
  let transformed := transpose x in
  if truthy (flag_return_log_jac kw)
  then Ok (WithJac transformed (Fin 0))
  else Ok (Plain transformed).

Definition Transpose_output_shape (input_shape : shape) : result shape :=
  match input_shape with
  | [N; M] => Ok [M; N]
  | _ => Raise ValueError
  end.

Definition Transpose : Transform :=
  SelfInverseTransform Transpose_transform Transpose_output_shape (Ok (PyBool true)).

(** ** invert_transform *)

Definition invert_transform (source : Transform) : Transform :=
  mkTransform (inverse source) (transform source)
              (input_shape source) (output_shape source)
              (is_structural source).

(** ** chain_transforms *)

(** [x, lj = f(...)] needs a pair, [x = f(...)] followed by tensor
    operations needs a tensor. *)
Definition as_pair (r : tout) : result (tensor * num) :=
  match r with
  | WithJac t lj => Ok (t, lj)
  | Plain _ => Raise TypeError
  end.

Definition as_tensor (r : tout) : result tensor :=
  match r with
  | Plain t => Ok t
  | WithJac _ _ => Raise TypeError
  end.

(** A [for] loop over a list that updates the loop variables [s]. *)
Fixpoint for_each {S A : Type} (l : list A) (body : S -> A -> result S) (s : S)
  : result S :=
  match l with
  | [] => Ok s
  | a :: l' => s' <- body s a ;; for_each l' body s'
  end.

(** [tf.stack] (and its older name [tf.pack]) of a list of scalars. *)
Definition stack (l : list num) : tensor := Vector l.

Definition Chain_loop (direction : Transform -> tensor -> kwargs -> result tout)
    (return_log_jac : pyval) (st : tensor * list num) (t : Transform)
  : result (tensor * list num) :=
  let '(x, log_jacs) := st in
  if truthy return_log_jac then
    r <- direction t x [("return_log_jac"%string, return_log_jac)] ;;
    '(x, lj) <- as_pair r ;;
    Ok (x, log_jacs ++ [lj])
  else
    r <- direction t x [("return_log_jac"%string, return_log_jac)] ;;
    x <- as_tensor r ;;
    Ok (x, log_jacs).

Definition Chain_transform (transforms : list Transform) (x : tensor) (kw : kwargs)
  : result tout :=
  _ <- kw_only ["return_log_jac"%string] kw ;;
  let return_log_jac := flag_return_log_jac kw in
  '(x, log_jacs) <- for_each transforms (Chain_loop transform return_log_jac) (x, []) ;;
  if truthy return_log_jac
  then Ok (WithJac x (reduce_sum (stack log_jacs)))
  else Ok (Plain x).

Definition Chain_inverse (transforms : list Transform) (transformed : tensor)
    (kw : kwargs) : result tout :=
  _ <- kw_only ["return_log_jac"%string] kw ;;
  let return_log_jac := flag_return_log_jac kw in
  '(transformed, log_jacs) <-
     for_each (rev transforms) (Chain_loop inverse return_log_jac) (transformed, []) ;;
  if truthy return_log_jac
  then Ok (WithJac transformed (reduce_sum (stack log_jacs)))
  else Ok (Plain transformed).

Definition Chain_output_shape (transforms : list Transform) (input_shape : shape)
  : result shape :=
  for_each transforms (fun s t => output_shape t s) input_shape.

Definition Chain_input_shape (transforms : list Transform) (output_shape : shape)
  : result shape :=
  for_each (rev transforms) (fun s t => input_shape t s) output_shape.

Definition Chain_is_structural (transforms : list Transform) : result pyval :=
  for_each (rev transforms)
           (fun acc t => v <- is_structural t ;; py_mul acc v)
           (PyBool true).

Definition chain_transforms (transforms : list Transform) : Transform :=
  mkTransform (Chain_transform transforms) (Chain_inverse transforms)
              (Chain_output_shape transforms) (Chain_input_shape transforms)
              (Chain_is_structural transforms).

(** ** the transforms defined by composition *)

Definition Sqrt : Transform := invert_transform Square.
Definition Reciprocal_Sqrt : Transform := chain_transforms [Reciprocal; Sqrt].
Definition Reciprocal_Square : Transform := chain_transforms [Reciprocal; Square].
Definition Exp_Reciprocal : Transform := chain_transforms [Exp; Reciprocal].
Definition ColNormalize : Transform := chain_transforms [Transpose; RowNormalize; Transpose].
Definition Simplex_Raw : Transform := chain_transforms [Exp; RowNormalize].
Definition Simplex_Raw_Col : Transform := chain_transforms [Exp; ColNormalize].

(** ** class Simplex *)

Definition Simplex_transform (x : tensor) (kw : kwargs) : result tout :=
  m <- reduce_max_axis1 x ;;
  xmax <- expand_dims1 m ;;
  shifted <- tsub x xmax ;;
  transform Simplex_Raw shifted kw.

Definition Simplex : Transform :=
  mkTransform Simplex_transform Transform_inverse
              Transform_output_shape Transform_input_shape Transform_is_structural.

(* ================================================================== *)
(** * elbow/transforms.py: the deterministic-transform nodes *)
(* ================================================================== *)

(** The node classes.  [Stochastic] stands for the classes of
    elementary.py and for [TransformedDistribution]: they derive from
    [ConditionalDistribution] directly and define neither [observe] nor
    [attach_q]. *)
Inductive class_name : Type :=
| ConditionalDistribution
| Stochastic (name : string)
| DeterministicTransform
| UnaryTransform
| NeuralGaussianTransform
| NeuralBernoulliTransform.

Inductive method_name : Type :=
| m_observe
| m_attach_q.

(** Method resolution order of a class. *)
Definition mro (c : class_name) : list class_name :=
  match c with
  | ConditionalDistribution => [ConditionalDistribution]
  | Stochastic _ => [c; ConditionalDistribution]
  | DeterministicTransform => [DeterministicTransform; ConditionalDistribution]
  | UnaryTransform | NeuralGaussianTransform | NeuralBernoulliTransform =>
      [c; DeterministicTransform; ConditionalDistribution]
  end.

(** Which class bodies contain a [def] of the method. *)
Definition defines (c : class_name) (m : method_name) : bool :=
  match c, m with
  | ConditionalDistribution, _ => true
  | DeterministicTransform, _ => true
  | UnaryTransform, m_observe => true
  | _, _ => false
  end.

Definition resolve (c : class_name) (m : method_name) : option class_name :=
  find (fun c' => defines c' m) (mro c).

(** A node of the model graph; the graph is an arena and a node refers
    to its parents by index. *)
Record node : Type := mkNode {
  node_class : class_name;
  node_shape : shape;
  inputs_random : list (string * nat);
  node_transform : option Transform;
  observed : option tensor;
  q : option nat
}.

Definition graph : Type := list node.

Fixpoint dict_get {V : Type} (d : list (string * V)) (key : string) : result V :=
  match d with
  | [] => Raise (KeyError key)
  | (k, v) :: d' => if String.eqb k key then Ok v else dict_get d' key
  end.

Fixpoint update_node (g : graph) (i : nat) (f : node -> node) : graph :=
  match g, i with
  | [], _ => []
  | n :: g', O => f n :: g'
  | n :: g', S i' => n :: update_node g' i' f
  end.

Definition set_observed (v : tensor) (n : node) : node :=
  mkNode (node_class n) (node_shape n) (inputs_random n) (node_transform n)
         (Some v) (q n).

Definition set_q (qn : nat) (n : node) : node :=
  mkNode (node_class n) (node_shape n) (inputs_random n) (node_transform n)
         (observed n) (Some qn).

Definition DeterministicTransform_attach_q (g : graph) (self : nat) (qdist : nat)
  : result graph :=
  Raise (Exception "cannot attach an explicit Q distribution to a deterministic transform. attach to the parent instead!").

Definition DeterministicTransform_observe (g : graph) (self : nat) (observed_val : tensor)
  : result graph :=
  Raise (Exception "cannot explicitly observe a deterministic transformed value. ").

Section Dispatch.

(** [ConditionalDistribution.observe] and [ConditionalDistribution.attach_q]:
    the methods of the base class, whose file conditional_dist.py is not
    part of the material.  The dispatch is stated for any such pair. *)
Variable base_observe : graph -> nat -> tensor -> result graph.
Variable base_attach_q : graph -> nat -> nat -> result graph.

(** [node.observe(value)]: dynamic dispatch on the class of the node.
    [UnaryTransform.observe] calls [observe] on the parent, which may be
    a [UnaryTransform] again; the fuel bounds the depth of such a chain
    and [None] means that it ran out. *)
Fixpoint observe (fuel : nat) (g : graph) (self : nat) (observed_val : tensor)
  : option (result graph) :=
  match fuel with
  | O => None
  | S fuel' =>
      match nth_error g self with
      | None => Some (Raise (Exception "no such node"))
      | Some n =>
          match resolve (node_class n) m_observe with
          | Some UnaryTransform =>
              match node_transform n with
              | None => Some (Raise (AttributeError "transform"))
              | Some t =>
                  match (r <- inverse t observed_val [] ;; as_tensor r) with
                  | Raise e => Some (Raise e)
                  | Ok transformed =>
                      match dict_get (inputs_random n) "A" with
                      | Raise e => Some (Raise e)
                      | Ok A => observe fuel' g A transformed
                      end
                  end
              end
          | Some DeterministicTransform =>
              Some (DeterministicTransform_observe g self observed_val)
          | Some _ => Some (base_observe g self observed_val)
          | None => Some (Raise (AttributeError "observe"))
          end
      end
  end.

(** [node.attach_q(qdist)]. *)
Definition attach_q (g : graph) (self : nat) (qdist : nat) : result graph :=
  match nth_error g self with
  | None => Raise (Exception "no such node")
  | Some n =>
      match resolve (node_class n) m_attach_q with
      | Some DeterministicTransform => DeterministicTransform_attach_q g self qdist
      | Some _ => base_attach_q g self qdist
      | None => Raise (AttributeError "attach_q")
      end
  end.

End Dispatch.

(** Modelled from the spec: [ConditionalDistribution.observe], whose
    source file conditional_dist.py is not part of the material; the
    spec's words are "fixes the node's realized value". *)
Definition ConditionalDistribution_observe (g : graph) (self : nat) (observed_val : tensor)
  : result graph :=
  Ok (update_node g self (set_observed observed_val)).

(** Modelled from the spec: [ConditionalDistribution.attach_q], from the
    same missing file; the spec's words are "overrides the default
    posterior; fails if q_node.shape != self.shape". *)
Definition ConditionalDistribution_attach_q (g : graph) (self : nat) (qdist : nat)
  : result graph :=
  match nth_error g self, nth_error g qdist with
  | Some n, Some qn =>
      if list_eq_dec Nat.eq_dec (node_shape qn) (node_shape n)
      then Ok (update_node g self (set_q qdist))
      else Raise AssertionError
  | _, _ => Raise (Exception "no such node")
  end.

(** The classes whose nodes are deterministic transforms. *)
Definition is_deterministic_transform (c : class_name) : bool :=
  existsb (fun c' => match c' with DeterministicTransform => true | _ => false end)
          (mro c).

(* ================================================================== *)
(** * elbow/elementary.py *)
(* ================================================================== *)

(** A node object seen through its attributes ([_sampled], and for some
    nodes [mean], [variance], ...); [None] is the absent node. *)
Definition obj : Type := list (string * tensor).

Definition getattr (o : option obj) (name : string) : result tensor :=
  match o with
  | None => Raise (AttributeError name)
  | Some attrs =>
      match dict_get attrs name with
      | Ok v => Ok v
      | Raise _ => Raise (AttributeError name)
      end
  end.

(** Duck typing: both attribute reads succeed. *)
Definition is_gaussian (dist : option obj) : bool :=
  match (_ <- getattr dist "mean" ;; _ <- getattr dist "variance" ;; Ok true) with
  | Ok b => b
  | Raise _ => false
  end.

Module ContinuousUniform.

Definition _logp (result' min_range max_range : tensor) : result num :=
  d <- tsub max_range min_range ;;
  let log_area := reduce_sum (tmap flog d) in
  Ok (fneg log_area).

End ContinuousUniform.

Module Laplace.

Definition _entropy (loc scale : tensor) : num :=
  fadd (Fin 1) (reduce_sum (tmap flog (tmap (fmul (Fin 2)) scale))).

End Laplace.

Module Gaussian.

(** The part of [self] that [_expected_logp] reads. *)
Record self_t : Type := mkSelf {
  inputs_nonrandom : list (string * tensor)
}.

Definition _logp (result' mean std : tensor) : result num :=
  lp <- gaussian_log_density result' (Some mean) (Some std) None ;;
  Ok (reduce_sum lp).

Definition get_sample (self : self_t) (q : option obj) (param : string)
  : result tensor :=
  match q with
  | None => dict_get (inputs_nonrandom self) param
  | Some _ => getattr q "_sampled"
  end.

Definition _expected_logp (self : self_t) (q_result : obj) (q_mean q_std : option obj)
  : result num :=
  std_sample <- get_sample self q_std "std" ;;
  mean_sample <- get_sample self q_mean "mean" ;;
  result_sample <- getattr (Some q_result) "_sampled" ;;
  if is_gaussian (Some q_result) && negb (is_gaussian q_mean) then
    m <- getattr (Some q_result) "mean" ;;
    v <- getattr (Some q_result) "variance" ;;
    cross <- gaussian_cross_entropy m v mean_sample (tmap fsquare std_sample) ;;
    Ok (fneg (reduce_sum cross))
  else if negb (is_gaussian (Some q_result)) && is_gaussian q_mean then
    m <- getattr q_mean "mean" ;;
    v <- getattr q_mean "variance" ;;
    cross <- gaussian_cross_entropy m v result_sample (tmap fsquare std_sample) ;;
    Ok (fneg (reduce_sum cross))
  else if is_gaussian (Some q_result) && is_gaussian q_mean then
    m <- getattr q_mean "mean" ;;
    vm <- getattr q_mean "variance" ;;
    vr <- getattr (Some q_result) "variance" ;;
    v <- tadd vm vr ;;
    mr <- getattr (Some q_result) "mean" ;;
    cross <- gaussian_cross_entropy m v mr (tmap fsquare std_sample) ;;
    Ok (fneg (reduce_sum cross))
  else
    _logp result_sample mean_sample std_sample.

End Gaussian.

(* ================================================================== *)
(** * Vocabulary of the statements *)
(* ================================================================== *)

Definition Rsum (l : list R) : R := fold_right Rplus 0 l.

(** Every entry of the tensor satisfies [P]. *)
Definition tall {A : Type} (P : A -> Prop) (t : tensor_of A) : Prop :=
  Forall P (entries t).

(** Clipping of a real number. *)
Definition Rclip (lo hi r : R) : R := Rmin (Rmax r lo) hi.

(** The keyword arguments [return_log_jac=b]. *)
Definition rlj (b : bool) : kwargs := [("return_log_jac"%string, PyBool b)].

(** A tensor of probabilities: finite entries between 0 and 1. *)
Definition probability_tensor (p : tensor) : Prop :=
  tall (fun v => exists r, v = Fin r /\ 0 <= r <= 1) p.

(** [stages dir ts x y ljs]: called one after the other in the order of
    the list, each on the tensor the previous one returned, the stages
    lead from [x] to [y]; stage i returns the log Jacobian [ljs_i] when
    asked for it, and the same tensor whether asked or not.  [dir] is
    [transform] or [inverse]. *)
Inductive stages (dir : Transform -> tensor -> kwargs -> result tout)
  : list Transform -> tensor -> tensor -> list num -> Prop :=
| stages_nil (x : tensor) : stages dir [] x x []
| stages_cons (t : Transform) (ts : list Transform) (x x1 y : tensor)
    (lj : num) (ljs : list num) :
    dir t x (rlj false) = Ok (Plain x1) ->
    dir t x (rlj true) = Ok (WithJac x1 lj) ->
    stages dir ts x1 y ljs ->
    stages dir (t :: ts) x y (lj :: ljs).

(** The values that [is_structural] returns: booleans, and the integers
    that products of booleans are. *)
Definition is_flag (v : pyval) : Prop :=
  match v with
  | PyBool _ | PyInt _ => True
  | _ => False
  end.

(** The negated sum of the closed-form Gaussian cross-entropy. *)
Definition neg_sum_cross_entropy (mean_p variance_p mean_q variance_q : tensor)
  : result num :=
  cross <- gaussian_cross_entropy mean_p variance_p mean_q variance_q ;;
  Ok (fneg (reduce_sum cross)).

(** The first rule of the expected-log-density dispatch in the words of
    the specification: the closed-form Gaussian cross-entropy "with
    combined variance Var[M] + sigma^2", for Z ~ Gaussian(mean=M,
    std=sigma). *)
Definition spec_both_gaussian (mean_M var_M mean_Z sigma : tensor) : result num :=
  combined <- tadd var_M (tmap fsquare sigma) ;;
  neg_sum_cross_entropy mean_M combined mean_Z (tmap fsquare sigma).



(* ================================================================== *)
(** * More of the source *)
(* ================================================================== *)

(** ** Numbers: [tf.abs] and [tf.sign] *)

Definition fabs (a : num) : num :=
  match a with
  | Fin x => Fin (Rabs x)
  | PInf | NInf => PInf
  | NaN => NaN
  end.

Definition fsign (a : num) : num :=
  match a with
  | Fin x =>
      match Rcmp x 0 with
      | Lt => Fin (-1)
      | Eq => Fin 0
      | Gt => Fin 1
      end
  | PInf => Fin 1
  | NInf => Fin (-1)
  | NaN => NaN
  end.

(** [tf.ones(shape)], for the ranks that [tensor] has. *)
Definition ones (s : shape) : result tensor :=
  match s with
  | [] => Ok (Scalar (Fin 1))
  | [n] => Ok (Vector (repeat (Fin 1) n))
  | [n; k] => Ok (Matrix (repeat (repeat (Fin 1) k) n))
  | _ => Raise (Exception "rank above 2")
  end.

(** A TensorFlow operation applied to [None]. *)
Definition need_tf (o : option tensor) : result tensor :=
  match o with
  | Some t => Ok t
  | None => Raise ValueError
  end.

(** ** elbow/util/dists.py, continued *)

Definition gaussian_kl (mu_p sigma2_p : tensor) (mu_q sigma2_q : option tensor)
  : result tensor :=
  match mu_q, sigma2_q with
  | None, None =>
      a <- tadd (tmap fsquare mu_p) sigma2_p ;;
      b <- tsub (tmap (fun v => fsub v (Fin 1)) a) (tmap flog sigma2_p) ;;
      Ok (tmap (fmul (Fin 0.5)) b)
  | _, _ =>
      let logsp := tmap flog sigma2_p in
      s2q <- need_tf sigma2_q ;;
      let logsq := tmap flog s2q in
      mq <- need_tf mu_q ;;
      d <- tsub mu_p mq ;;
      t1 <- tdiv (tmap fsquare d) s2q ;;
      t2 <- tdiv sigma2_p s2q ;;
      s <- tadd t1 t2 ;;
      s <- tsub (tmap (fun v => fsub v (Fin 1)) s) logsp ;;
      s <- tadd s logsq ;;
      Ok (tmap (fmul (Fin 0.5)) s)
  end.

Definition multinomial_entropy (p : tensor) (cross_q : option tensor) (clip_finite : pyval)
  : result tensor :=
  let cross_q := match cross_q with None => p | Some q => q end in
  let lq := if truthy clip_finite
            then tmap flog (clip_by_value cross_q 1e-37 1)
            else tmap flog cross_q in
  m <- tmul p lq ;;
  s <- reduce_sum_axis1 m ;;
  Ok (tmap fneg s).

Definition bernoulli_log_density (x p : tensor) (clip_finite : pyval) : result tensor :=
  let lp := if truthy clip_finite
            then tmap flog (clip_by_value p 1e-37 1)
            else tmap flog p in
  let lp1 := if truthy clip_finite
             then tmap flog (clip_by_value (one_minus p) 1e-37 1)
             else tmap flog (one_minus p) in
  a <- tmul x lp ;;
  b <- tmul (one_minus x) lp1 ;;
  tadd a b.

(** ** elbow/transforms.py, continued *)

(** [RowNormalize1.transform].  In the branch for a vector the source
    reads the name [x], which is not bound; a module-level object of
    that name would not be a tensor. *)
Definition RowNormalize1_transform (x_positive : tensor) (kw : kwargs) : result tout :=
  '(k, expanded, Z) <-
     match x_positive with
     | Matrix rows =>
         let expanded := Matrix (map (fun r => r ++ [Fin 1]) rows) in
         s <- reduce_sum_axis1 expanded ;;
         Z <- expand_dims1 s ;;
         Ok (nth 1 (extract_shape x_positive) 0%nat, expanded, Z)
     | Vector l =>
         _ <- lookup_name
                [("cls", PyObj); ("x_positive", PyObj);
                 ("return_log_jac", flag_return_log_jac kw); ("kwargs", PyObj);
                 ("k", PyObj)]%string
                module_globals "x" ;;
         Raise TypeError
     | Scalar _ => Raise ValueError
     end ;;
  transformed <- tdiv expanded Z ;;
  if truthy (flag_return_log_jac kw) then
    Ok (WithJac transformed (fmul (Fin (- INR k)) (reduce_sum (tmap flog Z))))
  else Ok (Plain transformed).

(** [UnaryTransform._sample] and [._compute_shape]. *)
Definition UnaryTransform_sample (transform' : Transform) (A : tensor) : result tout :=
  transform transform' A [].

Definition UnaryTransform_compute_shape (transform' : Transform) (A_shape : shape)
  : result shape :=
  output_shape transform' A_shape.




(** ** elbow/elementary.py, continued.  The noise that a sampling method
    draws is an argument of its model. *)

Definition ContinuousUniform_compute_shape (min_range_shape max_range_shape : shape)
  : result shape :=
  if list_eq_dec Nat.eq_dec min_range_shape max_range_shape
  then Ok min_range_shape
  else Raise AssertionError.

Definition ContinuousUniform_sample (random_uniform min_range max_range : tensor)
  : result tensor :=
  d <- tsub max_range min_range ;;
  m <- tmul random_uniform d ;;
  tadd m min_range.

Definition Laplace_sample (random_uniform loc scale : tensor) : result tensor :=
  let base := tmap (fun v => fsub v (Fin 0.5)) random_uniform in
  std_laplace <- tmul (tmap fsign base)
                      (tmap (fun v => flog (fsub (Fin 1) (fmul (Fin 2) (fabs v)))) base) ;;
  m <- tmul scale std_laplace ;;
  tadd loc m.

Definition Laplace_logp (result' loc scale : tensor) : result num :=
  d <- tsub result' loc ;;
  q <- tdiv (tmap fabs d) scale ;;
  t <- tsub q (tmap flog (tmap (fmul (Fin 2)) scale)) ;;
  Ok (fneg (reduce_sum t)).

Definition Gaussian_derived_parameters (mean std : tensor) : list (string * tensor) :=
  [("variance"%string, tmap fsquare std)].

Definition Gaussian_sample (random_normal mean std : tensor) : result tensor :=
  m <- tmul random_normal std ;;
  tadd m mean.

Definition Gaussian_entropy (self_shape : shape) (std : tensor) : result num :=
  o <- ones self_shape ;;
  variance <- tmul o (tmap fsquare std) ;;
  e <- gaussian_entropy None (Some variance) ;;
  Ok (reduce_sum (Scalar e)).

Definition BernoulliMatrix_logp (result' p : tensor) : result num :=
  lps <- bernoulli_log_density result' p (PyBool true) ;;
  Ok (reduce_sum lps).

Definition BernoulliMatrix_entropy (p : tensor) : result num :=
  e <- bernoulli_entropy p None (PyBool true) ;;
  Ok (reduce_sum e).

(** The bare [except] of the source catches whatever the [try] block
    raises. *)
Definition BernoulliMatrix_expected_logp (q_result : obj) (q_p : option obj)
  : result num :=
  p_z <- getattr q_p "_sampled" ;;
  match (q_z <- getattr (Some q_result) "p" ;;
         e <- bernoulli_entropy q_z (Some p_z) (PyBool true) ;;
         Ok (fneg (reduce_sum e))) with
  | Ok lp => Ok lp
  | Raise _ =>
      r <- getattr (Some q_result) "_sampled" ;;
      BernoulliMatrix_logp r p_z
  end.

Definition MultinomialMatrix_expected_logp (q_result : obj) (q_p : option obj)
  : result num :=
  p <- getattr q_p "_sampled" ;;
  q <- getattr (Some q_result) "p" ;;
  e <- multinomial_entropy q (Some p) (PyBool true) ;;
  Ok (reduce_sum e).

(** The names bound at module level in elementary.py once it is loaded. *)
Definition elementary_globals : list (string * pyval) :=
  map (fun n => (n, PyObj))
    ["np"; "tf"; "util"; "ConditionalDistribution"; "unconstrained";
     "positive_exp"; "simplex_constrained"; "unit_interval"; "psd_matrix_small";
     "psd_diagonal"; "Logit"; "Simplex1"; "Simplex"; "Exp";
     "TransformedDistribution"; "RowNormalize"; "scipy"; "ContinuousUniform";
     "GammaMatrix"; "BetaMatrix"; "DirichletMatrix"; "BernoulliMatrix";
     "MultinomialMatrix"; "Laplace"; "MVGaussian"; "is_gaussian"; "Gaussian"]%string.

(** [MVGaussian._logp] calls [multivariate_gaussian_log_density] by its
    bare name; the argument of that name is the function of
    elbow/util/dists.py, which the call would reach were the name bound
    to it. *)
Definition MVGaussian_logp
    (multivariate_gaussian_log_density : tensor -> tensor -> tensor -> result num)
    (result' mean cov : tensor) : result num :=
  _ <- lookup_name
         [("self", PyObj); ("result", PyObj); ("mean", PyObj); ("cov", PyObj)]%string
         elementary_globals "multivariate_gaussian_log_density" ;;
  multivariate_gaussian_log_density result' mean cov.

(** ** elbow/models/neural.py *)









(** ** Vocabulary of the further statements *)

(** [inverse] applied to what [transform] returns, both without the log
    Jacobian. *)
Definition round_trip (t : Transform) (x : tensor) : result tensor :=
  r <- transform t x (rlj false) ;;
  y <- as_tensor r ;;
  r' <- inverse t y (rlj false) ;;
  as_tensor r'.

(** A matrix given by its rows is rectangular: [n] rows of [k] entries. *)
Definition rectangular {A : Type} (n k : nat) (rows : list (list A)) : Prop :=
  List.length rows = n /\ Forall (fun r => List.length r = k) rows.

(** Tensors of one shape with finite entries: the images of one tensor
    [x] under real functions of its entries. *)
Definition at_entries {A : Type} (f : A -> R) (x : tensor_of A) : tensor :=
  lift (tfmap f x).


(* ================================================================== *)
(** * Facts about numbers *)
(* ================================================================== *)

Lemma Rcmp_Gt (x y : R) : y < x -> Rcmp x y = Gt.
Proof.
  intros H. unfold Rcmp. destruct (total_order_T x y) as [[H1 | H1] | H1]; try lra.
  reflexivity.
Qed.

Lemma Rcmp_Lt (x y : R) : x < y -> Rcmp x y = Lt.
Proof.
  intros H. unfold Rcmp. destruct (total_order_T x y) as [[H1 | H1] | H1]; try lra.
  reflexivity.
Qed.

Lemma Rcmp_Eq (x : R) : Rcmp x x = Eq.
Proof.
  unfold Rcmp. destruct (total_order_T x x) as [[H1 | H1] | H1]; try lra.
  reflexivity.
Qed.

Lemma flog_pos (x : R) : 0 < x -> flog (Fin x) = Fin (ln x).
Proof. intros H. unfold flog. now rewrite Rcmp_Gt. Qed.

Lemma flog_zero : flog (Fin 0) = NInf.
Proof. unfold flog. now rewrite Rcmp_Eq. Qed.

Lemma fdiv_fin (x y : R) : y <> 0 -> fdiv (Fin x) (Fin y) = Fin (x / y).
Proof.
  intros H. unfold fdiv, Rcmp.
  destruct (total_order_T y 0) as [[H1 | H1] | H1]; try reflexivity. contradiction.
Qed.

Lemma fsqrt_nonneg (x : R) : 0 <= x -> fsqrt (Fin x) = Fin (sqrt x).
Proof.
  intros H. unfold fsqrt, Rcmp.
  destruct (total_order_T x 0) as [[H1 | H1] | H1]; try reflexivity. lra.
Qed.

Lemma fclip_fin (lo hi x : R) : fclip lo hi (Fin x) = Fin (Rclip lo hi x).
Proof. reflexivity. Qed.

Lemma Rclip_bounds (lo hi x : R) : lo <= hi -> lo <= Rclip lo hi x <= hi.
Proof.
  intros H. unfold Rclip, Rmin, Rmax.
  destruct (Rle_dec x lo); destruct (Rle_dec _ hi); lra.
Qed.

Lemma Rclip_id (lo hi x : R) : lo <= x <= hi -> Rclip lo hi x = x.
Proof.
  intros H. unfold Rclip, Rmin, Rmax.
  destruct (Rle_dec x lo); destruct (Rle_dec _ hi); lra.
Qed.

Lemma fadd_0_l (a : num) : fadd (Fin 0) a = a.
Proof. destruct a; simpl; try reflexivity. f_equal. lra. Qed.

Lemma fadd_0_r (a : num) : fadd a (Fin 0) = a.
Proof. destruct a; simpl; try reflexivity. f_equal. lra. Qed.

Lemma fadd_assoc (a b c : num) : fadd a (fadd b c) = fadd (fadd a b) c.
Proof. destruct a, b, c; simpl; try reflexivity. f_equal. lra. Qed.

Lemma sum_list_cons (a : num) (l : list num) :
  sum_list (a :: l) = fadd a (sum_list l).
Proof. reflexivity. Qed.

Lemma sum_list_app (l1 l2 : list num) :
  sum_list (l1 ++ l2) = fadd (sum_list l1) (sum_list l2).
Proof.
  induction l1 as [| a l1 IH].
  - change (sum_list l2 = fadd (Fin 0) (sum_list l2)). now rewrite fadd_0_l.
  - rewrite <- app_comm_cons, !sum_list_cons, IH. apply fadd_assoc.
Qed.

Lemma Rsum_app (l1 l2 : list R) : Rsum (l1 ++ l2) = Rsum l1 + Rsum l2.
Proof. induction l1 as [| a l1 IH]; simpl; [| rewrite IH]; lra. Qed.

Lemma sum_list_fin {A : Type} (g : A -> R) (l : list A) :
  sum_list (map (fun a => Fin (g a)) l) = Fin (Rsum (map g l)).
Proof.
  induction l as [| a l IH]; [reflexivity |].
  cbn [map]. rewrite sum_list_cons, IH. reflexivity.
Qed.

(* ================================================================== *)
(** * Facts about tensors *)
(* ================================================================== *)

Lemma tmap_tfmap {A : Type} (f : num -> num) (g : A -> num) (x : tensor_of A) :
  tmap f (tfmap g x) = tfmap (fun a => f (g a)) x.
Proof.
  destruct x; simpl; try reflexivity.
  - unfold tmap. simpl. now rewrite map_map.
  - unfold tmap. simpl. f_equal. rewrite map_map. apply map_ext. intros r.
    now rewrite map_map.
Qed.

Lemma tfmap_ext_in {A B : Type} (f g : A -> B) (x : tensor_of A) :
  (forall a, In a (entries x) -> f a = g a) -> tfmap f x = tfmap g x.
Proof.
  destruct x; simpl; intros H.
  - f_equal. apply H. now left.
  - f_equal. now apply map_ext_in.
  - f_equal. apply map_ext_in. intros r Hr. apply map_ext_in. intros a Ha.
    apply H. apply in_concat. now exists r.
Qed.

Lemma tfmap_ext_all {A B : Type} (P : A -> Prop) (f g : A -> B) (x : tensor_of A) :
  tall P x -> (forall a, P a -> f a = g a) -> tfmap f x = tfmap g x.
Proof.
  intros Hall H. apply tfmap_ext_in. intros a Ha. apply H.
  unfold tall in Hall. rewrite Forall_forall in Hall. now apply Hall.
Qed.

Lemma reduce_sum_fin {A : Type} (g : A -> R) (x : tensor_of A) :
  reduce_sum (tfmap (fun a => Fin (g a)) x) = Fin (Rsum (map g (entries x))).
Proof.
  destruct x as [v | l | rows]; simpl.
  - f_equal. lra.
  - apply sum_list_fin.
  - induction rows as [| r rows IH]; [reflexivity |].
    cbn [map concat]. rewrite sum_list_cons, IH, sum_list_fin.
    cbn [fadd]. now rewrite map_app, Rsum_app.
Qed.

Lemma zipM_same {A : Type} (f : num -> num -> num) (g h : A -> num) (l : list A) :
  zipM (pure2 f) (map g l) (map h l) = Ok (map (fun a => f (g a) (h a)) l).
Proof. induction l as [| a l IH]; simpl; [reflexivity |]. now rewrite IH. Qed.

Lemma bzip_same {A : Type} (f : num -> num -> num) (g h : A -> num) (l : list A) :
  bzip (pure2 f) (map g l) (map h l) = Ok (map (fun a => f (g a) (h a)) l).
Proof.
  unfold bzip. rewrite !length_map, Nat.eqb_refl. apply zipM_same.
Qed.

Lemma tbin_same {A : Type} (f : num -> num -> num) (g h : A -> num) (x : tensor_of A) :
  tbin f (tfmap g x) (tfmap h x) = Ok (tfmap (fun a => f (g a) (h a)) x).
Proof.
  destruct x as [v | l | rows]; simpl; try reflexivity.
  - now rewrite bzip_same.
  - unfold bzip at 1. rewrite !length_map, Nat.eqb_refl.
    assert (E : zipM (bzip (pure2 f)) (map (map g) rows) (map (map h) rows)
                = Ok (map (map (fun a => f (g a) (h a))) rows)).
    { induction rows as [| r rows IH]; simpl; [reflexivity |].
      now rewrite bzip_same, IH. }
    now rewrite E.
Qed.

Lemma tfmap_id {A : Type} (x : tensor_of A) : tfmap (fun a => a) x = x.
Proof.
  destruct x; simpl; try reflexivity.
  - now rewrite map_id.
  - f_equal. rewrite <- (map_id rows) at 2. apply map_ext. intros r. apply map_id.
Qed.

Lemma tbin_same_l (f : num -> num -> num) (h : num -> num) (x : tensor) :
  tbin f x (tmap h x) = Ok (tmap (fun a => f a (h a)) x).
Proof.
  rewrite <- (tfmap_id x) at 1. unfold tmap. apply (tbin_same f (fun a => a) h).
Qed.

Ltac tensor_ops := unfold tsub, tadd, tmul, tdiv, one_minus, clip_by_value, lift in *.

Lemma tfmap_tfmap {A B C : Type} (f : B -> C) (g : A -> B) (x : tensor_of A) :
  tfmap f (tfmap g x) = tfmap (fun a => f (g a)) x.
Proof.
  destruct x; simpl; try reflexivity.
  - now rewrite map_map.
  - f_equal. rewrite map_map. apply map_ext. intros r. now rewrite map_map.
Qed.

Lemma bind_ok {A B : Type} (a : A) (k : A -> result B) : bind (Ok a) k = k a.
Proof. reflexivity. Qed.

Ltac tensor_steps :=
  repeat (rewrite tmap_tfmap || rewrite tbin_same || rewrite bind_ok).

Lemma bernoulli_kl_unclipped (p q : tensor) :
  bernoulli_kl p q (PyBool false) =
  Ok (tmap (fun v => fadd (fmul v (fsub (flog v) (flog v)))
                          (fmul (fsub (Fin 1) v)
                                (fsub (flog (fsub (Fin 1) v)) (flog (fsub (Fin 1) v)))))
           p).
Proof.
  unfold bernoulli_kl. cbn [truthy]. tensor_ops.
  rewrite <- (tfmap_id p). tensor_steps. reflexivity.
Qed.

Lemma sum_list_not_PInf (l : list num) :
  Forall (fun v => v <> PInf) l -> sum_list l <> PInf.
Proof.
  induction 1 as [| a l Ha Hl IH]; [discriminate |].
  rewrite sum_list_cons. destruct a, (sum_list l); simpl; congruence.
Qed.

Lemma flog_fin_not_PInf (r : R) : flog (Fin r) <> PInf.
Proof. unfold flog. destruct (Rcmp r 0); discriminate. Qed.

Lemma reduce_sum_entries (t : tensor) : reduce_sum t = sum_list (entries t).
Proof.
  destruct t as [v | l | rows]; simpl.
  - unfold sum_list. simpl. now rewrite fadd_0_r.
  - reflexivity.
  - induction rows as [| r rows IH]; [reflexivity |].
    cbn [map concat]. now rewrite sum_list_cons, sum_list_app, IH.
Qed.

Lemma entries_tfmap {A B : Type} (f : A -> B) (t : tensor_of A) :
  entries (tfmap f t) = map f (entries t).
Proof.
  destruct t as [v | l | rows]; simpl; try reflexivity.
  now rewrite concat_map.
Qed.

Lemma mapM_forall {A C : Type} (g : A -> result C) (Q : C -> Prop)
    (l1 : list A) (l : list C) :
  (forall a c, In a l1 -> g a = Ok c -> Q c) ->
  mapM g l1 = Ok l -> Forall Q l.
Proof.
  revert l. induction l1 as [| a l1 IH]; intros l H; simpl.
  - intros [= <-]. constructor.
  - destruct (g a) as [c |] eqn:Ec; simpl; [| discriminate].
    destruct (mapM g l1) as [cs |] eqn:E; simpl; [| discriminate].
    intros [= <-]. constructor; [apply (H a); auto using in_eq |].
    apply IH; [| reflexivity]. intros a' c' Ha. apply H; now right.
Qed.

(** What holds of every result of the operation on two entries holds of
    every entry of the broadcast result. *)
Section Broadcast.

Context {A B C : Type}.
Variable f : A -> B -> result C.
Variable Q : C -> Prop.

Lemma zipM_forall (l1 : list A) (l2 : list B) (l : list C) :
  (forall a b c, In a l1 -> In b l2 -> f a b = Ok c -> Q c) ->
  zipM f l1 l2 = Ok l -> Forall Q l.
Proof.
  revert l2 l. induction l1 as [| a l1 IH]; intros [| b l2] l H; simpl; try discriminate.
  - intros [= <-]. constructor.
  - destruct (f a b) as [c |] eqn:Ec; simpl; [| discriminate].
    destruct (zipM f l1 l2) as [cs |] eqn:E; simpl; [| discriminate].
    intros [= <-]. constructor.
    + apply (H a b); auto using in_eq.
    + apply (IH l2); [| exact E]. intros a' b' c' Ha Hb. apply H; now right.
Qed.

Lemma bzip_forall (l1 : list A) (l2 : list B) (l : list C) :
  (forall a b c, In a l1 -> In b l2 -> f a b = Ok c -> Q c) ->
  bzip f l1 l2 = Ok l -> Forall Q l.
Proof.
  intros H. unfold bzip. destruct (Nat.eqb _ _).
  - now apply zipM_forall.
  - destruct l1 as [| a [| a' l1]].
    + destruct l2 as [| b [| b' l2]]; try discriminate.
      simpl. intros [= <-]. constructor.
    + apply mapM_forall. intros b c Hb. apply H; [now left | exact Hb].
    + destruct l2 as [| b [| b' l2]]; try discriminate.
      apply mapM_forall. intros x c Hx. apply H; [exact Hx | now left].
Qed.

End Broadcast.

Lemma tall_tmap (P : num -> Prop) (g : num -> num) (t : tensor) :
  (forall z, In z (entries t) -> P (g z)) -> tall P (tmap g t).
Proof.
  intros H. unfold tall, tmap. rewrite entries_tfmap. apply Forall_map, Forall_forall.
  exact H.
Qed.

Lemma tbin_entries (f : num -> num -> num) (P : num -> Prop) (a b t : tensor) :
  (forall x y, In x (entries a) -> In y (entries b) -> P (f x y)) ->
  tbin f a b = Ok t -> tall P t.
Proof.
  assert (Hrow : forall l1 l2 l,
             (forall x y, In x l1 -> In y l2 -> P (f x y)) ->
             bzip (pure2 f) l1 l2 = Ok l -> Forall P l).
  { intros l1 l2 l H. apply bzip_forall. intros x y c Hx Hy [= <-]. now apply H. }
  assert (Hrows : forall r1 r2 r,
             (forall x y, In x (concat r1) -> In y (concat r2) -> P (f x y)) ->
             bzip (bzip (pure2 f)) r1 r2 = Ok r -> Forall P (concat r)).
  { intros r1 r2 r H E. apply Forall_concat.
    apply (bzip_forall _ _ _ _ _ (fun l1 l2 l Hl1 Hl2 El => Hrow l1 l2 l
             (fun x y Hx Hy => H x y (proj2 (in_concat r1 x) (ex_intro _ l1 (conj Hl1 Hx)))
                                     (proj2 (in_concat r2 y) (ex_intro _ l2 (conj Hl2 Hy))))
             El) E). }
  destruct a as [x | l1 | r1], b as [y | l2 | r2];
    cbv beta iota delta [tbin]; cbn [entries]; intros H.
  - intros [= <-]. apply (tall_tmap P (f x) (Scalar y)). intros z Hz. apply H; [now left | exact Hz].
  - intros [= <-]. apply (tall_tmap P (f x) (Vector l2)). intros z Hz. apply H; [now left | exact Hz].
  - intros [= <-]. apply (tall_tmap P (f x) (Matrix r2)). intros z Hz. apply H; [now left | exact Hz].
  - intros [= <-]. apply (tall_tmap P (fun z => f z y) (Vector l1)). intros z Hz.
    apply H; [exact Hz | now left].
  - destruct (bzip (pure2 f) l1 l2) as [l |] eqn:E; simpl; [| discriminate].
    intros [= <-]. now apply (Hrow l1 l2).
  - destruct (bzip (bzip (pure2 f)) [l1] r2) as [r |] eqn:E; simpl; [| discriminate].
    intros [= <-]. apply (Hrows [l1] r2); [| exact E].
    intros x y Hx Hy. apply H; [| exact Hy]. simpl in Hx. now rewrite app_nil_r in Hx.
  - intros [= <-]. apply (tall_tmap P (fun z => f z y) (Matrix r1)). intros z Hz.
    apply H; [exact Hz | now left].
  - destruct (bzip (bzip (pure2 f)) r1 [l2]) as [r |] eqn:E; simpl; [| discriminate].
    intros [= <-]. apply (Hrows r1 [l2]); [| exact E].
    intros x y Hx Hy. apply H; [exact Hx |]. simpl in Hy. now rewrite app_nil_r in Hy.
  - destruct (bzip (bzip (pure2 f)) r1 r2) as [r |] eqn:E; simpl; [| discriminate].
    intros [= <-]. now apply (Hrows r1 r2).
Qed.


(* ================================================================== *)
(** * The density library and the elementary distributions *)
(* ================================================================== *)

Lemma Rsum_const {A : Type} (g : A -> R) (s : A) (l : list A) :
  Forall (fun a => a = s) l -> Rsum (map g l) = INR (List.length l) * g s.
Proof.
  induction 1 as [| a l Ha Hl IH].
  - simpl. lra.
  - subst a. cbn [map Rsum fold_right List.length]. fold (Rsum (map g l)).
    rewrite IH, S_INR. lra.
Qed.

Lemma sum_list_const {A : Type} (g : A -> R) (s : A) (l : list A) :
  Forall (fun a => a = s) l ->
  sum_list (map (fun a => Fin (g a)) l) = Fin (INR (List.length l) * g s).
Proof. intros H. now rewrite sum_list_fin, (Rsum_const g s). Qed.

Lemma Laplace_entropy_scalar (loc : tensor) (s : R) :
  0 < s -> Laplace._entropy loc (Scalar (Fin s)) = Fin (1 + ln (2 * s)).
Proof.
  intros Hs. unfold Laplace._entropy. cbn [tmap tfmap reduce_sum fmul].
  rewrite flog_pos by lra. reflexivity.
Qed.

(** C9.  For a scale tensor with n entries, all equal to s > 0,
    [Laplace._entropy] returns 1 + n * log(2 s): the constant 1 is added
    once, not once per entry.  The sum of the entropies that the same
    method gives to the n entries one by one is n * (1 + log(2 s)), and
    it exceeds the returned value by exactly n - 1; for n = 1 the two
    agree. *)
Theorem Laplace_entropy_adds_one_once (loc : tensor) (scale : tensor_of R) (s : R) :
  0 < s ->
  tall (fun r => r = s) scale ->
  let n := List.length (entries scale) in
  Laplace._entropy loc (lift scale) = Fin (1 + INR n * ln (2 * s))
  /\ sum_list (map (fun r => Laplace._entropy loc (Scalar (Fin r))) (entries scale))
     = Fin (INR n * (1 + ln (2 * s)))
  /\ fsub (sum_list (map (fun r => Laplace._entropy loc (Scalar (Fin r))) (entries scale)))
          (Laplace._entropy loc (lift scale))
     = Fin (INR n - 1).
Proof.
  intros Hs Hall n.
  assert (E1 : Laplace._entropy loc (lift scale) = Fin (1 + INR n * ln (2 * s))).
  { unfold Laplace._entropy, lift. rewrite !tmap_tfmap.
    rewrite (tfmap_ext_all _ _ (fun r => Fin (ln (2 * r))) _ Hall).
    - rewrite reduce_sum_fin, (Rsum_const _ s) by exact Hall. reflexivity.
    - intros r ->. cbn [fmul]. now rewrite flog_pos by lra. }
  assert (E2 : sum_list (map (fun r => Laplace._entropy loc (Scalar (Fin r))) (entries scale))
               = Fin (INR n * (1 + ln (2 * s)))).
  { rewrite (map_ext_in _ (fun r => Fin (1 + ln (2 * r)))).
    - now apply (sum_list_const (fun r => 1 + ln (2 * r)) s).
    - intros r Hr. unfold tall in Hall. rewrite Forall_forall in Hall.
      rewrite (Hall r Hr). now apply Laplace_entropy_scalar. }
  split; [exact E1 | split; [exact E2 |]].
  rewrite E1, E2. cbn [fsub fneg fadd]. f_equal. lra.
Qed.

Lemma Laplace_entropy_adds_one_once_witness :
  0 < 2 /\ tall (fun r => r = 2) (Vector [2; 2; 2])
  /\ Laplace._entropy (Scalar (Fin 0)) (lift (Vector [2; 2; 2])) = Fin (1 + INR 3 * ln (2 * 2)).
Proof.
  split; [lra | split; [repeat constructor |]].
  apply (Laplace_entropy_adds_one_once (Scalar (Fin 0)) (Vector [2; 2; 2]) 2).
  - lra.
  - repeat constructor.
Defined.

(** C7.  [ContinuousUniform._logp] does not read its [result] argument:
    two results give the same value.  For bounds with finite entries,
    min below max entry by entry, that value is the finite number
    - sum log(max - min), whatever the result, inside the region or
    outside; and for finite bounds in any order the value is never
    minus infinity. *)
Theorem ContinuousUniform_logp_constant (r r' min_range max_range : tensor)
    (bounds : tensor_of (R * R)) (lo hi : tensor_of R) :
  ContinuousUniform._logp r min_range max_range
    = ContinuousUniform._logp r' min_range max_range
  /\ (tall (fun b => fst b < snd b) bounds ->
      ContinuousUniform._logp r (lift (tfmap fst bounds)) (lift (tfmap snd bounds))
      = Ok (Fin (- Rsum (map (fun b => ln (snd b - fst b)) (entries bounds)))))
  /\ ContinuousUniform._logp r (lift lo) (lift hi) <> Ok NInf.
Proof.
  split; [reflexivity | split].
  - intros Hb. unfold ContinuousUniform._logp. tensor_ops.
    rewrite !tfmap_tfmap. tensor_steps.
    rewrite (tfmap_ext_all _ _ (fun b => Fin (ln (snd b - fst b))) _ Hb).
    + now rewrite reduce_sum_fin.
    + intros [a b] Hab. cbn [fst snd fsub fneg fadd] in *.
      rewrite <- (flog_pos (b - a)) by lra. reflexivity.
  - unfold ContinuousUniform._logp.
    destruct (tsub (lift hi) (lift lo)) as [d |] eqn:E; simpl; [| discriminate].
    intros [= H].
    assert (Hd : tall (fun v => exists x, v = Fin x) d).
    { refine (tbin_entries fsub _ _ _ _ _ E). intros x y Hx Hy.
      unfold lift in Hx, Hy. rewrite entries_tfmap in Hx, Hy.
      apply in_map_iff in Hx as [a [<- _]]. apply in_map_iff in Hy as [b [<- _]].
      now eexists. }
    assert (Hs : reduce_sum (tmap flog d) <> PInf).
    { rewrite reduce_sum_entries. apply sum_list_not_PInf.
      unfold tmap. rewrite entries_tfmap. apply Forall_map.
      unfold tall in Hd. eapply Forall_impl; [| exact Hd].
      intros v [x ->]. apply flog_fin_not_PInf. }
    destruct (reduce_sum (tmap flog d)); simpl in H; congruence.
Qed.

Lemma ContinuousUniform_logp_constant_witness :
  tall (fun b => fst b < snd b) (Vector [(0, 1); (2, 4)])
  /\ ContinuousUniform._logp (Vector [Fin 7; Fin (-3)])
       (lift (tfmap fst (Vector [(0, 1); (2, 4)])))
       (lift (tfmap snd (Vector [(0, 1); (2, 4)])))
     = Ok (Fin (- Rsum (map (fun b => ln (snd b - fst b))
                            (entries (Vector [(0, 1); (2, 4)]))))).
Proof.
  assert (H : tall (fun b : R * R => fst b < snd b) (Vector [(0, 1); (2, 4)])).
  { repeat constructor; simpl; lra. }
  split; [exact H |].
  exact (proj1 (proj2 (ContinuousUniform_logp_constant
                         (Vector [Fin 7; Fin (-3)]) (Scalar NaN) (Scalar NaN) (Scalar NaN)
                         (Vector [(0, 1); (2, 4)]) (Scalar 0) (Scalar 0))) H).
Defined.

(** C10, as stated, fails at p = 0: the logarithm of 0 is minus
    infinity, the difference of two minus infinities is NaN, and
    0 * NaN is NaN, not 0. *)
Lemma bernoulli_kl_unclipped_at_zero :
  probability_tensor (Vector [Fin 0])
  /\ bernoulli_kl (Vector [Fin 0]) (Vector [Fin 0.5]) (PyBool false) = Ok (Vector [NaN])
  /\ bernoulli_kl (Vector [Fin 0]) (Vector [Fin 0.5]) (PyBool false)
     <> Ok (tmap (fun _ => Fin 0) (Vector [Fin 0])).
Proof.
  assert (E : bernoulli_kl (Vector [Fin 0]) (Vector [Fin 0.5]) (PyBool false)
              = Ok (Vector [NaN])).
  { rewrite bernoulli_kl_unclipped. cbn [tmap tfmap map].
    rewrite flog_zero. reflexivity. }
  split; [| split].
  - repeat constructor. exists 0. split; [reflexivity | lra].
  - exact E.
  - rewrite E. discriminate.
Qed.

(** C10 (amended).  With [clip_finite=False], [bernoulli_kl] never reads
    q: any two q give the same result; and when every entry of p lies
    strictly between 0 and 1 the result is the tensor of zeros of the
    shape of p. *)
Theorem bernoulli_kl_unclipped_zero (x : tensor_of R) (p q q' : tensor) :
  bernoulli_kl p q (PyBool false) = bernoulli_kl p q' (PyBool false)
  /\ (tall (fun r => 0 < r < 1) x ->
      bernoulli_kl (lift x) q (PyBool false) = Ok (lift (tfmap (fun _ => 0) x))).
Proof.
  split; [reflexivity |].
  intros H. rewrite bernoulli_kl_unclipped. unfold lift. tensor_steps. f_equal.
  rewrite tfmap_tfmap.
  apply (tfmap_ext_all _ _ _ _ H). intros r Hr.
  cbn [fsub fneg fadd]. rewrite !flog_pos by lra. cbn. f_equal. lra.
Qed.

Lemma bernoulli_kl_unclipped_zero_witness :
  tall (fun r => 0 < r < 1) (Vector [0.5; 0.25])
  /\ bernoulli_kl (lift (Vector [0.5; 0.25])) (Vector [Fin 0.75; Fin 0.125]) (PyBool false)
     = Ok (lift (tfmap (fun _ => 0) (Vector [0.5; 0.25]))).
Proof.
  assert (H : tall (fun r => 0 < r < 1) (Vector [0.5; 0.25])).
  { repeat constructor; lra. }
  split; [exact H |].
  exact (proj2 (bernoulli_kl_unclipped_zero (Vector [0.5; 0.25]) (Scalar NaN)
                  (Vector [Fin 0.75; Fin 0.125]) (Scalar NaN)) H).
Defined.

(* ================================================================== *)
(** * The transforms *)
(* ================================================================== *)

Lemma mapM_pure {A B : Type} (g : A -> B) (l : list A) :
  mapM (fun a => Ok (g a)) l = Ok (map g l).
Proof. induction l as [| a l IH]; simpl; [reflexivity |]. now rewrite IH. Qed.

(** A row against a one-entry row: the entry is repeated along the row. *)
Lemma bzip_row_col (f : num -> num -> num) (r : list num) (m : num) :
  bzip (pure2 f) r [m] = Ok (map (fun v => f v m) r).
Proof.
  destruct r as [| v [| v' r]]; try reflexivity.
  unfold bzip. cbn [List.length Nat.eqb].
  apply (mapM_pure (fun a => f a m)).
Qed.

Lemma bzip_rows_col (f : num -> num -> num) (g : list num -> num) (rows : list (list num)) :
  bzip (bzip (pure2 f)) rows (map (fun r => [g r]) rows)
  = Ok (map (fun r => map (fun v => f v (g r)) r) rows).
Proof.
  unfold bzip at 1. rewrite length_map, Nat.eqb_refl.
  induction rows as [| r rows IH]; simpl; [reflexivity |].
  now rewrite bzip_row_col, IH.
Qed.

Lemma Rmax_shift (a b c : R) : Rmax (a + c) (b + c) = Rmax a b + c.
Proof. unfold Rmax. destruct (Rle_dec a b), (Rle_dec (a + c) (b + c)); lra. Qed.

Lemma max_list_shift (c a : R) (l : list R) :
  exists M, max_list (map Fin (a :: l)) = Fin M
            /\ max_list (map (fun v => fadd (Fin v) (Fin c)) (a :: l)) = Fin (M + c).
Proof.
  revert a. induction l as [| b l IH]; intros a.
  - exists a. split; reflexivity.
  - destruct (IH b) as [M [E1 E2]]. exists (Rmax a M).
    unfold max_list in *. cbn [map fold_right] in *. rewrite E1, E2.
    split; [reflexivity |]. cbn [fadd fmax]. now rewrite Rmax_shift.
Qed.

(** Subtracting the maximum of a row undoes a shift of the row. *)
Lemma shifted_row (c : R) (r : list R) :
  let r' := map (fun v => fadd (Fin v) (Fin c)) r in
  map (fun v => fsub v (max_list r')) r'
  = map (fun v => fsub v (max_list (map Fin r))) (map Fin r).
Proof.
  destruct r as [| a l]; [reflexivity |].
  destruct (max_list_shift c a l) as [M [E1 E2]].
  cbv zeta. rewrite E1, E2, !map_map. apply map_ext. intros v.
  cbn [fadd fsub fneg]. f_equal. lra.
Qed.

Lemma Simplex_shifted_input (rows : list (list num)) :
  (m <- reduce_max_axis1 (Matrix rows) ;;
   xmax <- expand_dims1 m ;;
   tsub (Matrix rows) xmax)
  = Ok (Matrix (map (fun r => map (fun v => fsub v (max_list r)) r) rows)).
Proof.
  unfold reduce_max_axis1, reduce_axis1, expand_dims1, tsub, tbin.
  rewrite !bind_ok, map_map, bzip_rows_col. reflexivity.
Qed.


Lemma Exp_transform_default (x : tensor) :
  Exp_transform x (rlj false) = Ok (Plain (tmap fexp (clip_by_value x (-88) 88))).
Proof. reflexivity. Qed.

Lemma RowNormalize_transform_matrix (rows : list (list num)) :
  RowNormalize_transform (Matrix rows) (rlj false)
  = Ok (Plain (Matrix (map (fun r => map (fun v => fdiv v (sum_list r)) r) rows))).
Proof.
  unfold RowNormalize_transform, reduce_sum_axis1, reduce_axis1, expand_dims1.
  rewrite !bind_ok. unfold tdiv, tbin. rewrite map_map, bzip_rows_col. reflexivity.
Qed.

Lemma Chain_transform_two (t1 t2 : Transform) (x : tensor) :
  Chain_transform [t1; t2] x []
  = (r1 <- transform t1 x (rlj false) ;; x1 <- as_tensor r1 ;;
     r2 <- transform t2 x1 (rlj false) ;; x2 <- as_tensor r2 ;; Ok (Plain x2)).
Proof.
  unfold Chain_transform. cbn [kw_only forallb bind for_each]. unfold Chain_loop.
  change (flag_return_log_jac []) with (PyBool false). cbn [truthy]. fold (rlj false).
  destruct (transform t1 x (rlj false)) as [r1 |]; [| reflexivity]. cbn [bind].
  destruct (as_tensor r1) as [x1 |]; [| reflexivity]. cbn [bind].
  destruct (transform t2 x1 (rlj false)) as [r2 |]; [| reflexivity]. cbn [bind].
  destruct (as_tensor r2) as [x2 |]; reflexivity.
Qed.

(** Without keywords, Simplex.transform of a matrix returns the row-wise
    softmax computed from the shifted and clipped entries. *)
Lemma Simplex_transform_matrix (rows : list (list num)) :
  Simplex_transform (Matrix rows) []
  = Ok (Plain (Matrix
      (map (fun r =>
              let e := map (fun v => fexp (fclip (-88) 88 (fsub v (max_list r)))) r in
              map (fun v => fdiv v (sum_list e)) e)
           rows))).
Proof.
  unfold Simplex_transform.
  pose proof (Simplex_shifted_input rows) as E. unfold bind in E |- *.
  destruct (reduce_max_axis1 (Matrix rows)) as [m |]; [| discriminate].
  destruct (expand_dims1 m) as [xmax |]; [| discriminate].
  rewrite E. clear E.
  change (transform Simplex_Raw) with (Chain_transform [Exp; RowNormalize]).
  rewrite Chain_transform_two.
  change (transform Exp) with Exp_transform.
  change (transform RowNormalize) with RowNormalize_transform.
  rewrite Exp_transform_default. cbn [bind as_tensor clip_by_value tmap tfmap].
  rewrite RowNormalize_transform_matrix. cbn [bind as_tensor].
  rewrite !map_map. do 3 f_equal. apply map_ext. intros r.
  cbv zeta. now rewrite !map_map.
Qed.

(** C6.  Simplex.transform of a matrix with finite entries is unchanged
    when a finite scalar c is added to the matrix: the row maximum that
    Simplex subtracts moves by c as well, so the chain of Exp and
    RowNormalize receives the same tensor.  The call does return: without
    keywords the result is a matrix. *)
Theorem Simplex_shift_invariant (x : list (list R)) (c : R) (kw : kwargs) :
  (x_plus_c <- tadd (lift (Matrix x)) (Scalar (Fin c)) ;; Simplex_transform x_plus_c kw)
  = Simplex_transform (lift (Matrix x)) kw
  /\ exists y, Simplex_transform (lift (Matrix x)) [] = Ok (Plain (Matrix y)).
Proof.
  split; [| eexists; apply Simplex_transform_matrix].
  unfold tadd. cbn [tbin lift tfmap tmap]. rewrite bind_ok.
  unfold Simplex_transform.
  pose proof (Simplex_shifted_input (map (map Fin) x)) as E0.
  pose proof (Simplex_shifted_input
                (map (map (fun v => fadd v (Fin c))) (map (map Fin) x))) as Ec.
  unfold bind in *.
  destruct (reduce_max_axis1 (Matrix (map (map Fin) x))) as [m0 |]; [| discriminate].
  destruct (expand_dims1 m0) as [x0 |]; [| discriminate].
  destruct (reduce_max_axis1 _) as [mc |]; [| discriminate].
  destruct (expand_dims1 mc) as [xc |]; [| discriminate].
  rewrite E0, Ec. f_equal. f_equal.
  rewrite !map_map. apply map_ext. intros r.
  rewrite <- (shifted_row c r). cbv zeta. now rewrite !map_map.
Qed.

(* ================================================================== *)
(** * chain_transforms *)
(* ================================================================== *)

Lemma for_each_app {S A : Type} (l1 l2 : list A) (body : S -> A -> result S) (s : S) :
  for_each (l1 ++ l2) body s = (s1 <- for_each l1 body s ;; for_each l2 body s1).
Proof.
  revert s. induction l1 as [| a l1 IH]; intros s; simpl; [reflexivity |].
  destruct (body s a) as [s' |]; simpl; [apply IH | reflexivity].
Qed.

Section ChainRun.

(** The direction of the run: [transform] or [inverse]. *)
Variable dir : Transform -> tensor -> kwargs -> result tout.

Lemma Chain_loop_stages (ts : list Transform) (x y : tensor) (ljs : list num) :
  stages dir ts x y ljs ->
  forall acc,
    for_each ts (Chain_loop dir (PyBool false)) (x, acc) = Ok (y, acc)
    /\ for_each ts (Chain_loop dir (PyBool true)) (x, acc) = Ok (y, acc ++ ljs).
Proof.
  induction 1 as [x | t ts x x1 y lj ljs Hplain Hjac Hrest IH]; intros acc.
  - simpl. now rewrite app_nil_r.
  - cbn [for_each Chain_loop truthy]. fold (rlj false). fold (rlj true).
    rewrite Hplain, Hjac. cbn [bind as_tensor as_pair].
    destruct (IH acc) as [E1 _]. destruct (IH (acc ++ [lj])) as [_ E2].
    rewrite E1, E2, <- app_assoc. split; reflexivity.
Qed.

Lemma Chain_run_stages (ts : list Transform) (x y : tensor) (ljs : list num) (b : bool) :
  stages dir ts x y ljs ->
  (_ <- kw_only ["return_log_jac"%string] (rlj b) ;;
   let return_log_jac := flag_return_log_jac (rlj b) in
   '(x, log_jacs) <- for_each ts (Chain_loop dir return_log_jac) (x, []) ;;
   if truthy return_log_jac
   then Ok (WithJac x (reduce_sum (stack log_jacs)))
   else Ok (Plain x))
  = Ok (if b then WithJac y (sum_list ljs) else Plain y).
Proof.
  intros H. destruct (Chain_loop_stages ts x y ljs H []) as [E1 E2].
  destruct b; cbn [rlj kw_only forallb existsb fst bind].
  - change (flag_return_log_jac _) with (PyBool true). cbv zeta. now rewrite E2.
  - change (flag_return_log_jac _) with (PyBool false). cbv zeta. now rewrite E1.
Qed.

End ChainRun.

Lemma mul_flags (acc v : pyval) :
  is_flag acc -> is_flag v ->
  exists w, py_mul acc v = Ok w /\ is_flag w /\ truthy w = truthy acc && truthy v.
Proof.
  destruct acc as [| a | a |], v as [| b | b |]; simpl; try contradiction; intros _ _;
    eexists; (split; [reflexivity | split; [exact I |]]); cbn [truthy].
  - destruct a, b; reflexivity.
  - destruct a; [| reflexivity]. rewrite Z.mul_1_l. reflexivity.
  - destruct b; [rewrite Z.mul_1_r, andb_true_r | rewrite Z.mul_0_r, andb_false_r ]; reflexivity.
  - destruct (Z.eqb_spec a 0) as [-> | Ha]; [reflexivity |].
    destruct (Z.eqb_spec b 0) as [-> | Hb]; [now rewrite Z.mul_0_r |].
    destruct (Z.eqb_spec (a * b) 0) as [Hab | Hab]; [| reflexivity]. lia.
Qed.

Lemma is_structural_loop (ts : list Transform) (vs : list pyval) (acc : pyval) :
  Forall2 (fun t v => is_structural t = Ok v /\ is_flag v) ts vs ->
  is_flag acc ->
  exists w,
    for_each ts (fun acc t => v <- is_structural t ;; py_mul acc v) acc = Ok w
    /\ is_flag w /\ truthy w = truthy acc && forallb truthy vs.
Proof.
  intros H. revert acc. induction H as [| t v ts vs [Hv Hf] Hrest IH]; intros acc Hacc.
  - exists acc. simpl. now rewrite andb_true_r.
  - cbn [for_each forallb]. rewrite Hv. cbn [bind].
    destruct (mul_flags acc v Hacc Hf) as [w [E [Hw Ew]]]. rewrite E. cbn [bind].
    destruct (IH w Hw) as [w' [E' [Hw' Ew']]]. exists w'. split; [exact E' |].
    split; [exact Hw' |]. now rewrite Ew', Ew, andb_assoc.
Qed.

Lemma is_structural_loop_bool (ts : list Transform) (bs : list bool) (acc : pyval) (a : bool) :
  Forall2 (fun t b => is_structural t = Ok (PyBool b)) ts bs ->
  int_of acc = Some (if a then 1 else 0)%Z ->
  exists w,
    for_each ts (fun acc t => v <- is_structural t ;; py_mul acc v) acc = Ok w
    /\ int_of w = Some (if a && forallb (fun b => b) bs then 1 else 0)%Z.
Proof.
  intros H. revert acc a. induction H as [| t b ts bs Hb Hrest IH]; intros acc a Hacc.
  - exists acc. simpl. now rewrite andb_true_r.
  - cbn [for_each forallb]. rewrite Hb. cbn [bind]. unfold py_mul. rewrite Hacc.
    cbn [int_of bind].
    destruct (IH (PyInt ((if a then 1 else 0) * (if b then 1 else 0))) (a && b))
      as [w [E Ew]].
    + cbn [int_of]. now destruct a, b.
    + exists w. split; [exact E |]. now rewrite Ew, andb_assoc.
Qed.

Lemma forallb_rev {A : Type} (f : A -> bool) (l : list A) : forallb f (rev l) = forallb f l.
Proof.
  induction l as [| a l IH]; [reflexivity |].
  cbn [rev forallb]. rewrite forallb_app, IH. cbn [forallb].
  rewrite andb_true_r. apply andb_comm.
Qed.

Lemma Forall2_rev' {A B : Type} (P : A -> B -> Prop) (l1 : list A) (l2 : list B) :
  Forall2 P l1 l2 -> Forall2 P (rev l1) (rev l2).
Proof.
  induction 1 as [| a b l1 l2 Hab H IH]; [constructor |].
  cbn [rev]. apply Forall2_app; [exact IH | now constructor].
Qed.

(** C3.  For the composite C = chain_transforms(T1, ..., Tn):
    - when the stages T1, ..., Tn, called in this order, lead from x to
      y, C.transform(x) returns y, and with [return_log_jac=True] it
      returns y with the sum of the log Jacobians of the stages;
    - when the inverses of Tn, ..., T1, called in this order, lead from
      y to x, C.inverse(y) returns x, with the sum of their log
      Jacobians when asked;
    - C.is_structural() is true exactly when every component's is, and
      equals their conjunction when the components return booleans;
    - C.output_shape is T1.output_shape followed by the output_shape of
      the rest of the chain, and C.input_shape is Tn.input_shape
      followed by the input_shape of the chain before Tn. *)
Theorem chain_transforms_composes (ts : list Transform) :
  (forall x y ljs, stages transform ts x y ljs ->
     transform (chain_transforms ts) x (rlj false) = Ok (Plain y)
     /\ transform (chain_transforms ts) x (rlj true) = Ok (WithJac y (sum_list ljs)))
  /\ (forall y x ljs, stages inverse (rev ts) y x ljs ->
     inverse (chain_transforms ts) y (rlj false) = Ok (Plain x)
     /\ inverse (chain_transforms ts) y (rlj true) = Ok (WithJac x (sum_list ljs)))
  /\ (forall vs, Forall2 (fun t v => is_structural t = Ok v /\ is_flag v) ts vs ->
      exists w, is_structural (chain_transforms ts) = Ok w
                /\ truthy w = forallb truthy vs)
  /\ (forall bs, Forall2 (fun t b => is_structural t = Ok (PyBool b)) ts bs ->
      exists w, is_structural (chain_transforms ts) = Ok w
                /\ py_eq w (PyBool (forallb (fun b => b) bs)) = true)
  /\ (forall t1 ts1 s, ts = t1 :: ts1 ->
      output_shape (chain_transforms ts) s
      = (s1 <- output_shape t1 s ;; output_shape (chain_transforms ts1) s1))
  /\ (forall tn ts1 s, ts = ts1 ++ [tn] ->
      input_shape (chain_transforms ts) s
      = (s1 <- input_shape tn s ;; input_shape (chain_transforms ts1) s1)).
Proof.
  split; [| split; [| split; [| split; [| split]]]].
  - intros x y ljs H. split.
    + apply (Chain_run_stages transform ts x y ljs false H).
    + apply (Chain_run_stages transform ts x y ljs true H).
  - intros y x ljs H. split.
    + apply (Chain_run_stages inverse (rev ts) y x ljs false H).
    + apply (Chain_run_stages inverse (rev ts) y x ljs true H).
  - intros vs H. cbn [chain_transforms is_structural]. unfold Chain_is_structural.
    destruct (is_structural_loop (rev ts) (rev vs) (PyBool true)) as [w [E [_ Ew]]].
    + now apply Forall2_rev'.
    + exact I.
    + exists w. split; [exact E |]. now rewrite Ew, forallb_rev.
  - intros bs H. cbn [chain_transforms is_structural]. unfold Chain_is_structural.
    destruct (is_structural_loop_bool (rev ts) (rev bs) (PyBool true) true) as [w [E Ew]].
    + now apply Forall2_rev'.
    + reflexivity.
    + exists w. split; [exact E |]. unfold py_eq. rewrite Ew, forallb_rev.
      cbn [andb int_of]. apply Z.eqb_refl.
  - intros t1 ts1 s ->. reflexivity.
  - intros tn ts1 s ->. cbn [chain_transforms input_shape]. unfold Chain_input_shape.
    rewrite rev_app_distr. reflexivity.
Qed.

Lemma chain_transforms_composes_witness :
  let m := Matrix [[Fin 1; Fin 2]; [Fin 3; Fin 4]] in
  let ts := [Transpose; Transpose] in
  stages transform ts m m [Fin 0; Fin 0]
  /\ stages inverse (rev ts) m m [Fin 0; Fin 0]
  /\ Forall2 (fun t b => is_structural t = Ok (PyBool b)) ts [true; true]
  /\ transform (chain_transforms ts) m (rlj true) = Ok (WithJac m (sum_list [Fin 0; Fin 0]))
  /\ inverse (chain_transforms ts) m (rlj true) = Ok (WithJac m (sum_list [Fin 0; Fin 0]))
  /\ Forall2 (fun t v => is_structural t = Ok v /\ is_flag v) ts [PyBool true; PyBool true]
  /\ (exists w, is_structural (chain_transforms ts) = Ok w
                /\ truthy w = forallb truthy [PyBool true; PyBool true])
  /\ (exists w, is_structural (chain_transforms ts) = Ok w
                /\ py_eq w (PyBool (forallb (fun b => b) [true; true])) = true)
  /\ output_shape (chain_transforms ts) [2; 3]%nat
     = (s1 <- output_shape Transpose [2; 3]%nat ;;
        output_shape (chain_transforms [Transpose]) s1)
  /\ input_shape (chain_transforms ts) [2; 3]%nat
     = (s1 <- input_shape Transpose [2; 3]%nat ;;
        input_shape (chain_transforms [Transpose]) s1).
Proof.
  cbv zeta.
  assert (H : forall dir, dir = transform \/ dir = inverse ->
              stages dir [Transpose; Transpose]
                (Matrix [[Fin 1; Fin 2]; [Fin 3; Fin 4]])
                (Matrix [[Fin 1; Fin 2]; [Fin 3; Fin 4]]) [Fin 0; Fin 0]).
  { intros dir [-> | ->];
      (apply (stages_cons _ _ _ _ (Matrix [[Fin 1; Fin 3]; [Fin 2; Fin 4]]));
       [reflexivity | reflexivity |];
       apply (stages_cons _ _ _ _ (Matrix [[Fin 1; Fin 2]; [Fin 3; Fin 4]]));
       [reflexivity | reflexivity | apply stages_nil]). }
  assert (Hs : Forall2 (fun t b => is_structural t = Ok (PyBool b))
                       [Transpose; Transpose] [true; true]).
  { repeat constructor. }
  assert (Hf : Forall2 (fun t v => is_structural t = Ok v /\ is_flag v)
                       [Transpose; Transpose] [PyBool true; PyBool true]).
  { repeat constructor. }
  destruct (chain_transforms_composes [Transpose; Transpose])
    as [Hfwd [Hinv [Hflag [Hbool [Hout Hin]]]]].
  split; [exact (H transform (or_introl eq_refl)) |].
  split; [exact (H inverse (or_intror eq_refl)) |].
  split; [exact Hs |].
  split; [exact (proj2 (Hfwd _ _ _ (H transform (or_introl eq_refl)))) |].
  split; [exact (proj2 (Hinv _ _ _ (H inverse (or_intror eq_refl)))) |].
  split; [exact Hf |].
  split; [exact (Hflag _ Hf) |].
  split; [exact (Hbool _ Hs) |].
  split; [exact (Hout Transpose [Transpose] _ eq_refl) |].
  exact (Hin Transpose [Transpose] _ eq_refl).
Defined.

(* ================================================================== *)
(** * Deterministic-transform nodes *)
(* ================================================================== *)

Lemma nth_error_update_node (g : graph) (i : nat) (f : node -> node) (n : node) :
  nth_error g i = Some n -> nth_error (update_node g i f) i = Some (f n).
Proof.
  revert i. induction g as [| m g IH]; intros [| i]; simpl; try discriminate.
  - now intros [= ->].
  - apply IH.
Qed.

(** C5.  Whatever the methods of the base class do: on a node of any
    deterministic-transform class, [attach_q] raises; on a node of a
    deterministic-transform class that does not define its own
    [observe], [observe] raises; on a [UnaryTransform] node whose
    transform has an inverse at the observed value, and whose parent A
    is a random (not deterministic-transform) node, [observe] is the
    call of the base-class [observe] on A with the value that the
    inverse gives.  With the base-class [observe] of the specification,
    which records the value, that call returns and the value becomes
    the observation of A. *)
Theorem deterministic_transform_observe_attach_q
    (base_observe : graph -> nat -> tensor -> result graph)
    (base_attach_q : graph -> nat -> nat -> result graph)
    (g : graph) (self : nat) (n : node) (fuel : nat) :
  nth_error g self = Some n ->
  is_deterministic_transform (node_class n) = true ->
  (forall qdist, exists msg, attach_q base_attach_q g self qdist = Raise (Exception msg))
  /\ (node_class n <> UnaryTransform ->
      forall v, exists msg,
        observe base_observe (S fuel) g self v = Some (Raise (Exception msg)))
  /\ (node_class n = UnaryTransform ->
      forall t v x A parent,
        node_transform n = Some t ->
        inverse t v [] = Ok (Plain x) ->
        dict_get (inputs_random n) "A" = Ok A ->
        nth_error g A = Some parent ->
        is_deterministic_transform (node_class parent) = false ->
        observe base_observe (S (S fuel)) g self v = Some (base_observe g A x)
        /\ observe ConditionalDistribution_observe (S (S fuel)) g self v
           = Some (Ok (update_node g A (set_observed x)))
        /\ option_map observed (nth_error (update_node g A (set_observed x)) A)
           = Some (Some x)).
Proof.
  intros Hn Hdet. split; [| split].
  - intros qdist. unfold attach_q. rewrite Hn.
    destruct (node_class n); try discriminate; eexists; reflexivity.
  - intros Hnot v. cbn [observe]. rewrite Hn.
    destruct (node_class n); try discriminate; try contradiction;
      eexists; reflexivity.
  - intros Hcls t v x A parent Ht Hinv HA Hp Hstoch.
    assert (E : forall base, observe base (S (S fuel)) g self v = Some (base g A x)).
    { intros base. cbn [observe]. rewrite Hn, Hcls. cbn [resolve mro find defines].
      rewrite Ht, Hinv. cbn [bind as_tensor]. rewrite HA, Hp.
      destruct (node_class parent); try discriminate; reflexivity. }
    split; [apply E | split; [apply E |]].
    now rewrite (nth_error_update_node g A _ parent Hp).
Qed.

Lemma deterministic_transform_observe_attach_q_witness :
  let parent := mkNode (Stochastic "Gaussian") [2; 2]%nat [] None None None in
  let child := mkNode UnaryTransform [2; 2]%nat [("A"%string, 0%nat)] (Some Transpose)
                      None None in
  let encoder := mkNode NeuralGaussianTransform [2; 2]%nat [("X"%string, 0%nat)] None
                        None None in
  let g := [parent; child; encoder] in
  let v := Matrix [[Fin 1; Fin 2]; [Fin 3; Fin 4]] in
  let x := Matrix [[Fin 1; Fin 3]; [Fin 2; Fin 4]] in
  nth_error g 1 = Some child
  /\ is_deterministic_transform (node_class child) = true
  /\ inverse Transpose v [] = Ok (Plain x)
  /\ is_deterministic_transform (node_class parent) = false
  /\ (exists msg, attach_q ConditionalDistribution_attach_q g 1 0 = Raise (Exception msg))
  /\ observe ConditionalDistribution_observe 2 g 1 v
     = Some (Ok (update_node g 0 (set_observed x)))
  /\ nth_error g 2 = Some encoder
  /\ is_deterministic_transform (node_class encoder) = true
  /\ node_class encoder <> UnaryTransform
  /\ (exists msg, attach_q ConditionalDistribution_attach_q g 2 0 = Raise (Exception msg))
  /\ (exists msg, observe ConditionalDistribution_observe 1 g 2 v
                  = Some (Raise (Exception msg))).
Proof.
  cbv zeta.
  set (parent := mkNode (Stochastic "Gaussian") [2; 2]%nat [] None None None).
  set (child := mkNode UnaryTransform [2; 2]%nat [("A"%string, 0%nat)] (Some Transpose)
                       None None).
  set (encoder := mkNode NeuralGaussianTransform [2; 2]%nat [("X"%string, 0%nat)] None
                         None None).
  assert (Hne : node_class encoder <> UnaryTransform) by discriminate.
  destruct (deterministic_transform_observe_attach_q
              ConditionalDistribution_observe ConditionalDistribution_attach_q
              [parent; child; encoder] 1 child 0 eq_refl eq_refl) as [Hq [_ Hobs]].
  destruct (deterministic_transform_observe_attach_q
              ConditionalDistribution_observe ConditionalDistribution_attach_q
              [parent; child; encoder] 2 encoder 0 eq_refl eq_refl) as [Hq' [Hobs' _]].
  split; [reflexivity |]. split; [reflexivity |]. split; [reflexivity |].
  split; [reflexivity |]. split; [apply Hq |].
  split.
  { exact (proj1 (proj2 (Hobs eq_refl Transpose (Matrix [[Fin 1; Fin 2]; [Fin 3; Fin 4]])
                       (Matrix [[Fin 1; Fin 3]; [Fin 2; Fin 4]]) 0%nat parent
                       eq_refl eq_refl eq_refl eq_refl eq_refl))). }
  split; [reflexivity |]. split; [reflexivity |]. split; [exact Hne |].
  split; [apply Hq' |].
  exact (Hobs' Hne _).
Defined.

(* ================================================================== *)
(** * Gaussian._expected_logp *)
(* ================================================================== *)

Lemma neg_sum_cross_entropy_scalar (mp vp mq vq : R) :
  0 < vq ->
  neg_sum_cross_entropy (Scalar (Fin mp)) (Scalar (Fin vp))
                        (Scalar (Fin mq)) (Scalar (Fin vq))
  = Ok (Fin (- ((mp - mq) * (mp - mq)) / (2 * vq) - ln (2 * PI * vq) / 2
             - vp / (2 * vq))).
Proof.
  intros Hv. pose proof PI_RGT_0 as Hpi.
  unfold neg_sum_cross_entropy, gaussian_cross_entropy, gaussian_log_density.
  unfold tsub, tmul, tdiv, tadd.
  cbn [tbin tmap tfmap bind fsub fneg fadd fmul reduce_sum].
  rewrite !fdiv_fin by lra.
  rewrite flog_pos by (apply Rmult_lt_0_compat; lra).
  cbn [tbin tmap tfmap bind fsub fneg fadd fmul reduce_sum].
  do 2 f_equal. replace (-0.5) with (- (1 / 2)) by lra. replace 0.5 with (1 / 2) by lra.
  field. lra.
Qed.

Lemma is_gaussian_attrs (o : obj) (m v : tensor) :
  getattr (Some o) "mean" = Ok m -> getattr (Some o) "variance" = Ok v ->
  is_gaussian (Some o) = true.
Proof. intros Hm Hv. unfold is_gaussian. now rewrite Hm, Hv. Qed.

(** C1, as stated, fails: with posterior variances Var[M] = Var[Z] = 1
    and sigma = 2 the method uses the combined variance
    Var[M] + Var[Z] = 2, not Var[M] + sigma^2 = 5. *)
Lemma Gaussian_expected_logp_not_spec_both_gaussian :
  let self := Gaussian.mkSelf [("std"%string, Scalar (Fin 2))] in
  let q_Z := [("_sampled"%string, Scalar (Fin 0)); ("mean"%string, Scalar (Fin 0));
              ("variance"%string, Scalar (Fin 1))] in
  let q_M := [("_sampled"%string, Scalar (Fin 0)); ("mean"%string, Scalar (Fin 0));
              ("variance"%string, Scalar (Fin 1))] in
  is_gaussian (Some q_Z) = true /\ is_gaussian (Some q_M) = true
  /\ Gaussian._expected_logp self q_Z (Some q_M) None
     <> spec_both_gaussian (Scalar (Fin 0)) (Scalar (Fin 1)) (Scalar (Fin 0))
                           (Scalar (Fin 2)).
Proof.
  cbv zeta. split; [reflexivity | split; [reflexivity |]].
  unfold Gaussian._expected_logp, spec_both_gaussian.
  cbn [Gaussian.get_sample Gaussian.inputs_nonrandom dict_get String.eqb Ascii.eqb
       Bool.eqb getattr bind].
  change (is_gaussian _) with true.
  cbn [andb negb getattr dict_get String.eqb Ascii.eqb Bool.eqb bind tadd tbin tmap
       tfmap fadd fsquare fmul].
  fold (neg_sum_cross_entropy (Scalar (Fin 0)) (Scalar (Fin (1 + 1))) (Scalar (Fin 0))
                              (Scalar (Fin (2 * 2)))).
  rewrite !neg_sum_cross_entropy_scalar by lra.
  intros [= H]. lra.
Qed.

(** C1 (amended).  For a Gaussian node Z whose mean input is a random
    parent M: when the posteriors on Z and on M are both Gaussian,
    [_expected_logp] returns the negated sum of the closed-form Gaussian
    cross-entropy of N(mean of M's posterior, Var[M] + Var[Z]) against
    N(mean of Z's posterior, sigma^2): the combined variance is the sum
    of the two posterior variances, and sigma^2 is the variance it is
    measured against; for finite scalars this is
    - (mM - mZ)^2 / (2 sigma^2) - log(2 pi sigma^2) / 2
    - (Var[M] + Var[Z]) / (2 sigma^2).
    When neither posterior is Gaussian it returns the Gaussian
    log-density at the samples of both posteriors. *)
Theorem Gaussian_expected_logp_dispatch
    (self : Gaussian.self_t) (q_result q_mean : obj) (q_std : option obj)
    (std_sample mean_sample result_sample : tensor) :
  Gaussian.get_sample self q_std "std" = Ok std_sample ->
  getattr (Some q_mean) "_sampled" = Ok mean_sample ->
  getattr (Some q_result) "_sampled" = Ok result_sample ->
  (forall mean_Z var_Z mean_M var_M,
      getattr (Some q_result) "mean" = Ok mean_Z ->
      getattr (Some q_result) "variance" = Ok var_Z ->
      getattr (Some q_mean) "mean" = Ok mean_M ->
      getattr (Some q_mean) "variance" = Ok var_M ->
      Gaussian._expected_logp self q_result (Some q_mean) q_std
      = (combined <- tadd var_M var_Z ;;
         neg_sum_cross_entropy mean_M combined mean_Z (tmap fsquare std_sample)))
  /\ (forall mZ vZ mM vM sigma : R,
      sigma <> 0 ->
      (combined <- tadd (Scalar (Fin vM)) (Scalar (Fin vZ)) ;;
       neg_sum_cross_entropy (Scalar (Fin mM)) combined (Scalar (Fin mZ))
                             (tmap fsquare (Scalar (Fin sigma))))
      = Ok (Fin (- ((mM - mZ) * (mM - mZ)) / (2 * (sigma * sigma))
                 - ln (2 * PI * (sigma * sigma)) / 2
                 - (vM + vZ) / (2 * (sigma * sigma)))))
  /\ (is_gaussian (Some q_result) = false ->
      is_gaussian (Some q_mean) = false ->
      Gaussian._expected_logp self q_result (Some q_mean) q_std
      = Gaussian._logp result_sample mean_sample std_sample).
Proof.
  intros Hstd Hmean Hres. split; [| split].
  - intros mean_Z var_Z mean_M var_M HmZ HvZ HmM HvM.
    unfold Gaussian._expected_logp. rewrite Hstd. cbn [bind Gaussian.get_sample].
    rewrite Hmean, Hres. cbn [bind].
    rewrite (is_gaussian_attrs q_result mean_Z var_Z HmZ HvZ).
    rewrite (is_gaussian_attrs q_mean mean_M var_M HmM HvM).
    cbn [andb negb]. rewrite HmM, HvM, HvZ. cbn [bind].
    destruct (tadd var_M var_Z) as [combined |]; [| reflexivity].
    cbn [bind]. rewrite HmZ. reflexivity.
  - intros mZ vZ mM vM sigma Hs.
    cbn [tadd tbin tmap tfmap fadd fsquare fmul bind].
    apply neg_sum_cross_entropy_scalar. nra.
  - intros HgZ HgM.
    unfold Gaussian._expected_logp. rewrite Hstd. cbn [bind Gaussian.get_sample].
    rewrite Hmean, Hres. cbn [bind]. rewrite HgZ, HgM. reflexivity.
Qed.

Lemma Gaussian_expected_logp_dispatch_witness :
  let self := Gaussian.mkSelf [("std"%string, Scalar (Fin 2))] in
  let q_Z := [("_sampled"%string, Scalar (Fin 0)); ("mean"%string, Scalar (Fin 0));
              ("variance"%string, Scalar (Fin 1))] in
  let q_M := [("_sampled"%string, Scalar (Fin 3)); ("mean"%string, Scalar (Fin 3));
              ("variance"%string, Scalar (Fin 1))] in
  let s_Z := [("_sampled"%string, Scalar (Fin 0))] in
  let s_M := [("_sampled"%string, Scalar (Fin 3))] in
  Gaussian.get_sample self None "std" = Ok (Scalar (Fin 2))
  /\ getattr (Some q_M) "_sampled" = Ok (Scalar (Fin 3))
  /\ getattr (Some q_Z) "_sampled" = Ok (Scalar (Fin 0))
  /\ Gaussian._expected_logp self q_Z (Some q_M) None
     = (combined <- tadd (Scalar (Fin 1)) (Scalar (Fin 1)) ;;
        neg_sum_cross_entropy (Scalar (Fin 3)) combined (Scalar (Fin 0))
                              (tmap fsquare (Scalar (Fin 2))))
  /\ 2 <> 0
  /\ (combined <- tadd (Scalar (Fin 1)) (Scalar (Fin 1)) ;;
      neg_sum_cross_entropy (Scalar (Fin 3)) combined (Scalar (Fin 0))
                            (tmap fsquare (Scalar (Fin 2))))
     = Ok (Fin (- ((3 - 0) * (3 - 0)) / (2 * (2 * 2)) - ln (2 * PI * (2 * 2)) / 2
                - (1 + 1) / (2 * (2 * 2))))
  /\ is_gaussian (Some s_Z) = false /\ is_gaussian (Some s_M) = false
  /\ Gaussian._expected_logp self s_Z (Some s_M) None
     = Gaussian._logp (Scalar (Fin 0)) (Scalar (Fin 3)) (Scalar (Fin 2)).
Proof.
  cbv zeta.
  assert (H2 : 2 <> 0) by lra.
  split; [reflexivity | split; [reflexivity | split; [reflexivity |]]].
  split; [| split; [exact H2 | split;
    [exact (proj1 (proj2 (Gaussian_expected_logp_dispatch
                    (Gaussian.mkSelf [("std"%string, Scalar (Fin 2))])
                    [("_sampled"%string, Scalar (Fin 0))]
                    [("_sampled"%string, Scalar (Fin 3))]
                    None _ _ _ eq_refl eq_refl eq_refl)) 0 1 3 1 2 H2) |]]].
  - exact (proj1 (Gaussian_expected_logp_dispatch
                    (Gaussian.mkSelf [("std"%string, Scalar (Fin 2))])
                    [("_sampled"%string, Scalar (Fin 0)); ("mean"%string, Scalar (Fin 0));
                     ("variance"%string, Scalar (Fin 1))]
                    [("_sampled"%string, Scalar (Fin 3)); ("mean"%string, Scalar (Fin 3));
                     ("variance"%string, Scalar (Fin 1))]
                    None _ _ _ eq_refl eq_refl eq_refl)
                 _ _ _ _ eq_refl eq_refl eq_refl eq_refl).
  - split; [reflexivity | split; [reflexivity |]].
    exact (proj2 (proj2 (Gaussian_expected_logp_dispatch
                    (Gaussian.mkSelf [("std"%string, Scalar (Fin 2))])
                    [("_sampled"%string, Scalar (Fin 0))]
                    [("_sampled"%string, Scalar (Fin 3))]
                    None _ _ _ eq_refl eq_refl eq_refl))
                 eq_refl eq_refl).
Defined.

(* ================================================================== *)
(** * Numeric bounds behind the clipping constants *)
(* ================================================================== *)






Lemma Rle_mul_inv (c n d : R) : 0 < d -> c * d <= n -> c <= n * / d.
Proof.
  intros Hd H. apply Rmult_le_reg_r with d; [exact Hd |].
  rewrite Rmult_assoc, Rinv_l, Rmult_1_r by lra. exact H.
Qed.


(* ================================================================== *)
(** * Tensors with finite entries *)
(* ================================================================== *)

Lemma tfmap_ext {A B : Type} (f g : A -> B) (x : tensor_of A) :
  (forall a, f a = g a) -> tfmap f x = tfmap g x.
Proof. intros H. apply tfmap_ext_in. intros a _. apply H. Qed.





Lemma reduce_sum_lift (x : tensor_of R) : reduce_sum (lift x) = Fin (Rsum (entries x)).
Proof.
  unfold lift. rewrite (reduce_sum_fin (fun r => r)). now rewrite map_id.
Qed.


Lemma Rsum_opp {A : Type} (g : A -> R) (l : list A) :
  Rsum (map (fun a => - g a) l) = - Rsum (map g l).
Proof. induction l as [| a l IH]; simpl; [| rewrite IH]; lra. Qed.

Lemma Rsum_scal {A : Type} (c : R) (g : A -> R) (l : list A) :
  Rsum (map (fun a => c * g a) l) = c * Rsum (map g l).
Proof. induction l as [| a l IH]; simpl; [| rewrite IH]; lra. Qed.

Lemma Rsum_ext_in {A : Type} (f g : A -> R) (l : list A) :
  (forall a, In a l -> f a = g a) -> Rsum (map f l) = Rsum (map g l).
Proof. intros H. f_equal. now apply map_ext_in. Qed.

(** ** Exp *)


Lemma Rclip_pos (lo hi r : R) : 0 < lo -> lo <= hi -> 0 < Rclip lo hi r.
Proof. intros H1 H2. pose proof (Rclip_bounds lo hi r H2). lra. Qed.


(** ** Log1Exp *)






Lemma ln_mono (x y : R) : 0 < x -> x <= y -> ln x <= ln y.
Proof.
  intros Hx [H | ->]; [left; now apply ln_increasing | right; reflexivity].
Qed.



(** ** Reciprocal *)




(** ** Exp *)



(** ** Square *)






(** ** Logit *)

Lemma Logit_inverse_cases (y : tensor) (kw : kwargs) :
  Logit_inverse y kw =
    if truthy (flag_return_log_jac kw)
    then Raise (NameError "clip_finite")
    else Ok (Plain (tmap (fun v => flog (fsub (fdiv (Fin 1) v) (Fin 1))) y)).
Proof.
  unfold Logit_inverse. destruct (truthy (flag_return_log_jac kw)); [| reflexivity].
  unfold tmul, one_minus. rewrite tbin_same_l. reflexivity.
Qed.


(** C8.  Logit.inverse called with a true [return_log_jac] raises
    NameError for the name [clip_finite], whatever the input and the
    other keywords: the name is neither a parameter nor a local nor a
    module-level name.  Called without it, Logit.inverse returns
    log(1/y - 1). *)
Theorem Logit_inverse_log_jac_raises_NameError (y : tensor) (kw : kwargs) :
  Logit_inverse y kw =
    if truthy (flag_return_log_jac kw)
    then Raise (NameError "clip_finite")
    else Ok (Plain (tmap (fun v => flog (fsub (fdiv (Fin 1) v) (Fin 1))) y)).
Proof. exact (Logit_inverse_cases y kw). Qed.




(* ================================================================== *)
(** * Clipping *)
(* ================================================================== *)


(** ** Logit.transform *)




(* ================================================================== *)
(** * Round trips of the transforms *)
(* ================================================================== *)






(** Square.inverse(Square.transform(x)) is the absolute value of x: the
    sign of a negative entry is lost. *)
Theorem Square_round_trip_abs (x : tensor_of R) :
  round_trip Square (lift x) = Ok (lift (tfmap Rabs x))
  /\ transform Sqrt = inverse Square /\ inverse Sqrt = transform Square.
Proof.
  split; [| split; reflexivity].
  unfold round_trip.
  change (transform Square) with Square_transform.
  change (inverse Square) with Square_inverse.
  unfold Square_transform, Square_inverse.
  change (flag_return_log_jac (rlj false)) with (PyBool false). cbn [truthy bind as_tensor].
  unfold lift. rewrite !tmap_tfmap, tfmap_tfmap. f_equal.
  apply tfmap_ext. intros r. cbn [fsquare fmul].
  rewrite fsqrt_nonneg by nra. f_equal.
  replace (r * r) with (Rsqr r) by reflexivity. apply sqrt_Rsqr_abs.
Qed.


(* ================================================================== *)
(** * Transpose *)
(* ================================================================== *)

Lemma length_transpose_rows (k : nat) (rows : list (list num)) :
  List.length (transpose_rows k rows) = k.
Proof.
  revert rows. induction k as [| k IH]; intros rows; simpl; [reflexivity |].
  now rewrite IH.
Qed.

Lemma transpose_rows_cons (k : nat) (r : list num) (rows : list (list num)) :
  List.length r = k ->
  transpose_rows k (r :: rows)
  = map (fun p => fst p :: snd p) (combine r (transpose_rows k rows)).
Proof.
  revert r rows. induction k as [| k IH]; intros [| a r] rows Hr; try discriminate.
  - reflexivity.
  - cbn [transpose_rows map hd tl combine fst snd]. f_equal.
    apply IH. now injection Hr.
Qed.

Lemma transpose_rows_columns (m : nat) (r : list num) (cols : list (list num)) :
  List.length r = List.length cols ->
  transpose_rows (S m) (map (fun p => fst p :: snd p) (combine r cols))
  = r :: transpose_rows m cols.
Proof.
  intros H. cbn [transpose_rows]. rewrite !map_map. cbn [hd tl fst snd]. f_equal.
  - change (map (fun x : num * list num => fst x) (combine r cols) = r).
    revert cols H. induction r as [| a r IH]; intros [| c cols] H; try discriminate;
      [reflexivity |]. cbn [combine map fst]. f_equal. apply IH. now injection H.
  - f_equal. change (map (fun x : num * list num => snd x) (combine r cols) = cols).
    revert cols H. induction r as [| a r IH]; intros [| c cols] H; try discriminate;
      [reflexivity |]. cbn [combine map snd]. f_equal. apply IH. now injection H.
Qed.

Lemma transpose_rows_twice (k : nat) (rows : list (list num)) :
  Forall (fun r => List.length r = k) rows ->
  transpose_rows (List.length rows) (transpose_rows k rows) = rows.
Proof.
  induction 1 as [| r rows Hr Hrows IH]; [reflexivity |].
  rewrite (transpose_rows_cons k r rows Hr). cbn [List.length].
  rewrite transpose_rows_columns by (now rewrite length_transpose_rows).
  now rewrite IH.
Qed.

(** Transpose is its own inverse on a matrix of n >= 1 rows of k >= 1
    entries; the matrix it returns has k rows of n entries, as
    Transpose.output_shape says; output_shape applied twice is the
    identity, and it refuses a shape that is not a pair. *)
Theorem Transpose_round_trip (n k : nat) (rows : list (list num)) :
  rectangular n k rows -> (1 <= n)%nat -> (1 <= k)%nat ->
  round_trip Transpose (Matrix rows) = Ok (Matrix rows)
  /\ (exists cols, transform Transpose (Matrix rows) (rlj false) = Ok (Plain (Matrix cols))
                   /\ rectangular k n cols)
  /\ (s <- output_shape Transpose [n; k] ;; output_shape Transpose s) = Ok [n; k]
  /\ output_shape Transpose [n] = Raise ValueError.
Proof.
  intros [Hn Hk] Hn1 Hk1.
  assert (Hcols : transpose (Matrix rows) = Matrix (transpose_rows k rows)).
  { destruct rows as [| r rows]; [simpl in Hn; lia |].
    cbn [transpose]. now rewrite (Forall_inv Hk). }
  assert (Hrect : rectangular k n (transpose_rows k rows)).
  { split; [apply length_transpose_rows |].
    clear Hcols Hk1. revert rows Hn Hk. induction k as [| k IH]; intros rows Hn Hk.
    - constructor.
    - cbn [transpose_rows]. constructor; [now rewrite length_map |].
      apply IH; [now rewrite length_map |].
      apply Forall_map. eapply Forall_impl; [| exact Hk].
      intros [| a r] Hr; simpl in *; [discriminate | now injection Hr]. }
  assert (Hback : transpose (Matrix (transpose_rows k rows)) = Matrix rows).
  { destruct (transpose_rows k rows) as [| c cols] eqn:E.
    - pose proof (length_transpose_rows k rows) as Hl. rewrite E in Hl. simpl in Hl. lia.
    - cbn [transpose]. destruct Hrect as [_ Hc]. rewrite (Forall_inv Hc).
      rewrite <- E, <- Hn. f_equal. now apply transpose_rows_twice. }
  assert (Hcall : forall x, Transpose_transform x (rlj false) = Ok (Plain (transpose x)))
    by reflexivity.
  split; [| split; [| split; reflexivity]].
  - unfold round_trip.
    change (transform Transpose) with Transpose_transform.
    change (inverse Transpose) with Transpose_transform.
    rewrite Hcall. cbn [bind as_tensor]. rewrite Hcall. cbn [bind as_tensor].
    now rewrite Hcols, Hback.
  - exists (transpose_rows k rows). split; [| exact Hrect].
    change (transform Transpose) with Transpose_transform.
    now rewrite Hcall, Hcols.
Qed.

Lemma Transpose_round_trip_witness :
  let m := [[Fin 1; Fin 2; Fin 3]; [Fin 4; Fin 5; Fin 6]] in
  rectangular 2 3 m /\ (1 <= 2)%nat /\ (1 <= 3)%nat
  /\ round_trip Transpose (Matrix m) = Ok (Matrix m).
Proof.
  cbv zeta.
  assert (H : rectangular 2 3 [[Fin 1; Fin 2; Fin 3]; [Fin 4; Fin 5; Fin 6]]).
  { split; [reflexivity | repeat constructor]. }
  split; [exact H | split; [lia | split; [lia |]]].
  exact (proj1 (Transpose_round_trip 2 3 _ H ltac:(lia) ltac:(lia))).
Defined.

(* ================================================================== *)
(** * RowNormalize, RowNormalize1 and Simplex *)
(* ================================================================== *)

Lemma Rsum_div (S : R) (l : list R) : Rsum (map (fun v => v / S) l) = Rsum l / S.
Proof.
  induction l as [| a l IH]; simpl; [unfold Rdiv; ring |].
  rewrite IH. unfold Rdiv. ring.
Qed.

Lemma sum_list_Fin (l : list R) : sum_list (map Fin l) = Fin (Rsum l).
Proof. rewrite (sum_list_fin (fun r => r)). now rewrite map_id. Qed.

Lemma normalized_row (l : list R) :
  Rsum l <> 0 ->
  map (fun v => fdiv v (sum_list (map Fin l))) (map Fin l)
  = map Fin (map (fun v => v / Rsum l) l)
  /\ Rsum (map (fun v => v / Rsum l) l) = 1.
Proof.
  intros H. split.
  - rewrite sum_list_Fin, !map_map. apply map_ext. intros v. now apply fdiv_fin.
  - rewrite Rsum_div. now field.
Qed.

(** On a matrix with finite entries whose rows have a non-zero sum (a
    matrix of positive entries is one), RowNormalize.transform divides
    every row by its sum, so every row of the result sums to 1; and the
    log Jacobian it reports is -k times the sum of the logs of the row
    sums, k the number of columns. *)
Theorem RowNormalize_rows_sum_to_one (x : list (list R)) :
  Forall (fun r => Rsum r <> 0) x ->
  let y := map (fun r => map (fun v => v / Rsum r) r) x in
  RowNormalize_transform (lift (Matrix x)) (rlj false) = Ok (Plain (lift (Matrix y)))
  /\ Forall (fun r => Rsum r = 1) y
  /\ (Forall (fun r => 0 < Rsum r) x ->
      RowNormalize_transform (lift (Matrix x)) (rlj true)
      = Ok (WithJac (lift (Matrix y))
                    (Fin (- INR (match x with [] => 0 | r :: _ => List.length r end)
                          * Rsum (map (fun r => ln (Rsum r)) x))))).
Proof.
  intros H y.
  assert (Ey : map (fun r => map (fun v => fdiv v (sum_list r)) r) (map (map Fin) x)
               = map (map Fin) y).
  { unfold y. rewrite !map_map. apply map_ext_in. intros r Hr.
    rewrite Forall_forall in H. apply (normalized_row r (H r Hr)). }
  split; [| split].
  - cbn [lift tfmap]. rewrite RowNormalize_transform_matrix. now rewrite Ey.
  - unfold y. apply Forall_map. eapply Forall_impl; [| exact H].
    intros r Hr. now apply normalized_row.
  - intros Hpos.
    unfold RowNormalize_transform, reduce_sum_axis1, reduce_axis1, expand_dims1.
    cbn [lift tfmap bind]. unfold tdiv, tbin.
    rewrite map_map, (bzip_rows_col fdiv sum_list). cbn [bind].
    change (flag_return_log_jac (rlj true)) with (PyBool true). cbn [truthy].
    rewrite Ey. do 2 f_equal.
    assert (Ez : tmap flog (Matrix (map (fun r => [sum_list r]) (map (map Fin) x)))
                 = lift (Matrix (map (fun r => [ln (Rsum r)]) x))).
    { cbn [tmap tfmap lift]. f_equal. rewrite !map_map. apply map_ext_in. intros r Hr.
      cbn [map]. rewrite sum_list_Fin, flog_pos; [reflexivity |].
      rewrite Forall_forall in Hpos. now apply Hpos. }
    rewrite Ez, reduce_sum_lift. cbn [fmul entries extract_shape nth].
    f_equal. f_equal.
    + destruct x; [reflexivity |]. cbn [map List.length]. now rewrite length_map.
    + f_equal. clear. induction x as [| r x IH]; [reflexivity |].
      cbn [map concat app]. now rewrite IH.
Qed.

Lemma RowNormalize_rows_sum_to_one_witness :
  Forall (fun r => Rsum r <> 0) [[1; 1; 2]]
  /\ Forall (fun r => 0 < Rsum r) [[1; 1; 2]]
  /\ RowNormalize_transform (lift (Matrix [[1; 1; 2]])) (rlj false)
     = Ok (Plain (lift (Matrix (map (fun r => map (fun v => v / Rsum r) r) [[1; 1; 2]])))).
Proof.
  assert (H : Forall (fun r => Rsum r <> 0) [[1; 1; 2]]).
  { repeat constructor. simpl. lra. }
  assert (H' : Forall (fun r => 0 < Rsum r) [[1; 1; 2]]).
  { repeat constructor. simpl. lra. }
  split; [exact H | split; [exact H' |]].
  exact (proj1 (RowNormalize_rows_sum_to_one [[1; 1; 2]] H)).
Defined.






(* ================================================================== *)
(** * Chains and inverted transforms *)
(* ================================================================== *)

Lemma for_each_map {S A B : Type} (f : A -> B) (l : list A) (body : S -> B -> result S)
    (s : S) :
  for_each (map f l) body s = for_each l (fun s a => body s (f a)) s.
Proof.
  revert s. induction l as [| a l IH]; intros s; [reflexivity |].
  cbn [map for_each]. destruct (body s (f a)) as [s' |]; cbn [bind]; [apply IH | reflexivity].
Qed.

(** Inverting a chain is chaining the inverted stages in reverse order:
    on every input and with every keyword, the transform, inverse,
    output_shape and input_shape of invert_transform(chain_transforms(ts))
    are those of chain_transforms applied to the reversed list of the
    inverted stages. *)
Theorem invert_chain_is_chain_of_inverted (ts : list Transform) (x : tensor) (kw : kwargs)
    (s : shape) :
  let inv := invert_transform (chain_transforms ts) in
  let chn := chain_transforms (map invert_transform (rev ts)) in
  transform inv x kw = transform chn x kw
  /\ inverse inv x kw = inverse chn x kw
  /\ output_shape inv s = output_shape chn s
  /\ input_shape inv s = input_shape chn s.
Proof.
  cbv zeta. cbn [invert_transform chain_transforms transform inverse output_shape input_shape].
  unfold Chain_transform, Chain_inverse, Chain_output_shape, Chain_input_shape.
  rewrite <- map_rev, rev_involutive, !for_each_map.
  repeat split.
Qed.

Section ChainNest.

Variable dir : Transform -> tensor -> kwargs -> result tout.
Variable flag : pyval.

Lemma Chain_loop_acc (ts : list Transform) (x : tensor) (acc : list num) :
  for_each ts (Chain_loop dir flag) (x, acc)
  = ('(y, l) <- for_each ts (Chain_loop dir flag) (x, []) ;; Ok (y, acc ++ l)).
Proof.
  revert x acc. induction ts as [| t ts IH]; intros x acc.
  - cbn [for_each bind]. now rewrite app_nil_r.
  - cbn [for_each]. unfold Chain_loop at 1 3.
    destruct (truthy flag).
    + destruct (dir t x _) as [r |]; [| reflexivity]. cbn [bind].
      destruct (as_pair r) as [[x' lj] |]; [| reflexivity]. cbn [bind app].
      rewrite (IH x' (acc ++ [lj])), (IH x' [lj]).
      destruct (for_each ts (Chain_loop dir flag) (x', [])) as [[y l] |]; [| reflexivity].
      cbn [bind]. now rewrite <- app_assoc.
    + destruct (dir t x _) as [r |]; [| reflexivity]. cbn [bind].
      destruct (as_tensor r) as [x' |]; [| reflexivity]. cbn [bind].
      rewrite (IH x' acc), (IH x' []).
      destruct (for_each ts (Chain_loop dir flag) (x', [])) as [[y l] |]; reflexivity.
Qed.

(** [c] is a chain of the stages [ts], when run in the direction [dir]. *)
Variable runs_chain : Transform -> list Transform -> Prop.
Hypothesis runs_chain_eq : forall c ts, runs_chain c ts ->
  forall x, dir c x [("return_log_jac"%string, flag)]
            = ('(y, l) <- for_each ts (Chain_loop dir flag) (x, []) ;;
               if truthy flag then Ok (WithJac y (reduce_sum (stack l))) else Ok (Plain y)).

Lemma Chain_loop_nested (c : Transform) (ts : list Transform) (x : tensor) (acc : list num) :
  runs_chain c ts ->
  Chain_loop dir flag (x, acc) c
  = ('(y, l) <- for_each ts (Chain_loop dir flag) (x, []) ;;
     Ok (y, if truthy flag then acc ++ [sum_list l] else acc)).
Proof.
  intros H. unfold Chain_loop. rewrite (runs_chain_eq c ts H).
  destruct (for_each ts _ (x, [])) as [[y l] |]; [| now destruct (truthy flag)].
  cbn [bind]. destruct (truthy flag); reflexivity.
Qed.

Lemma Chain_nested_flat (ca cb : Transform) (la lb : list Transform) (x : tensor) :
  runs_chain ca la -> runs_chain cb lb ->
  ('(y, l) <- for_each [ca; cb] (Chain_loop dir flag) (x, []) ;;
   if truthy flag then Ok (WithJac y (reduce_sum (stack l))) else Ok (Plain y))
  = ('(y, l) <- for_each (la ++ lb) (Chain_loop dir flag) (x, []) ;;
     if truthy flag then Ok (WithJac y (reduce_sum (stack l))) else Ok (Plain y)).
Proof.
  intros Ha Hb. rewrite for_each_app. cbn [for_each].
  rewrite (Chain_loop_nested ca la x [] Ha).
  destruct (for_each la _ (x, [])) as [[y1 l1] |]; [| reflexivity]. cbn [bind].
  rewrite (Chain_loop_nested cb lb y1 _ Hb), (Chain_loop_acc lb y1 l1).
  destruct (for_each lb _ (y1, [])) as [[y2 l2] |]; [| reflexivity]. cbn [bind].
  destruct (truthy flag); [| reflexivity].
  do 2 f_equal. cbn [app stack reduce_sum].
  now rewrite sum_list_app, !sum_list_cons, fadd_0_r.
Qed.

End ChainNest.

Lemma kw_only_flag (kw : kwargs) :
  kw_only ["return_log_jac"%string] [("return_log_jac"%string, flag_return_log_jac kw)] = Ok tt
  /\ flag_return_log_jac [("return_log_jac"%string, flag_return_log_jac kw)]
     = flag_return_log_jac kw.
Proof. split; reflexivity. Qed.

(** Chains nest: a chain whose two stages are themselves chains behaves
    as the one chain of all their stages, in both directions, with every
    keyword, and for the shape maps.  With return_log_jac the nested
    chain adds the two sums of log Jacobians, the flat chain sums all of
    them; the two agree.  (ColNormalize, Simplex1Col and Simplex_Raw_Col
    are built by such nesting.) *)
Theorem chain_of_chains_is_flat (ts1 ts2 : list Transform) (x : tensor) (kw : kwargs)
    (s : shape) :
  let nested := chain_transforms [chain_transforms ts1; chain_transforms ts2] in
  let flat := chain_transforms (ts1 ++ ts2) in
  transform nested x kw = transform flat x kw
  /\ inverse nested x kw = inverse flat x kw
  /\ output_shape nested s = output_shape flat s
  /\ input_shape nested s = input_shape flat s.
Proof.
  cbv zeta. split; [| split; [| split]].
  - change (Chain_transform [chain_transforms ts1; chain_transforms ts2] x kw
            = Chain_transform (ts1 ++ ts2) x kw).
    unfold Chain_transform.
    destruct (kw_only ["return_log_jac"%string] kw); [| reflexivity]. cbn [bind].
    apply (Chain_nested_flat transform (flag_return_log_jac kw)
             (fun c ts => c = chain_transforms ts)).
    + intros c ts -> y. reflexivity.
    + reflexivity.
    + reflexivity.
  - change (Chain_inverse [chain_transforms ts1; chain_transforms ts2] x kw
            = Chain_inverse (ts1 ++ ts2) x kw).
    unfold Chain_inverse.
    destruct (kw_only ["return_log_jac"%string] kw); [| reflexivity]. cbn [bind].
    rewrite rev_app_distr. cbn [rev app].
    apply (Chain_nested_flat inverse (flag_return_log_jac kw)
             (fun c ts => c = chain_transforms (rev ts))).
    + intros c ts -> y. change (inverse (chain_transforms (rev ts)))
        with (Chain_inverse (rev ts)). unfold Chain_inverse.
      now rewrite rev_involutive.
    + now rewrite rev_involutive.
    + now rewrite rev_involutive.
  - change (Chain_output_shape [chain_transforms ts1; chain_transforms ts2] s
            = Chain_output_shape (ts1 ++ ts2) s).
    unfold Chain_output_shape. rewrite for_each_app. cbn [for_each].
    change (output_shape (chain_transforms ts1)) with (Chain_output_shape ts1).
    change (output_shape (chain_transforms ts2)) with (Chain_output_shape ts2).
    unfold Chain_output_shape.
    destruct (for_each ts1 _ s) as [s1 |]; [| reflexivity]. cbn [bind].
    now destruct (for_each ts2 _ s1).
  - change (Chain_input_shape [chain_transforms ts1; chain_transforms ts2] s
            = Chain_input_shape (ts1 ++ ts2) s).
    unfold Chain_input_shape. rewrite rev_app_distr, for_each_app. cbn [rev app for_each].
    change (input_shape (chain_transforms ts1)) with (Chain_input_shape ts1).
    change (input_shape (chain_transforms ts2)) with (Chain_input_shape ts2).
    unfold Chain_input_shape.
    destruct (for_each (rev ts2) _ s) as [s1 |]; [| reflexivity]. cbn [bind].
    now destruct (for_each (rev ts1) _ s1).
Qed.

(** A class made by chain_transforms takes no keyword but
    return_log_jac: any other one, clip_finite included, is a TypeError,
    in both directions.  Simplex.transform hands its keywords on to the
    chain Simplex_Raw, so on a matrix it raises the same TypeError: the
    clipping of its Exp stage cannot be switched off. *)
Theorem chains_reject_keywords (ts : list Transform) (x : tensor) (rows : list (list num))
    (kw : kwargs) (name : string) (v : pyval) :
  In (name, v) kw -> name <> "return_log_jac"%string ->
  transform (chain_transforms ts) x kw = Raise TypeError
  /\ inverse (chain_transforms ts) x kw = Raise TypeError
  /\ transform Simplex (Matrix rows) kw = Raise TypeError.
Proof.
  intros Hin Hname.
  assert (E : kw_only ["return_log_jac"%string] kw = Raise TypeError).
  { unfold kw_only.
    destruct (forallb _ kw) eqn:F; [| reflexivity].
    rewrite forallb_forall in F. specialize (F _ Hin). cbn [existsb fst] in F.
    rewrite orb_false_r in F. apply String.eqb_eq in F. congruence. }
  cbn [chain_transforms transform inverse Simplex].
  unfold Chain_transform, Chain_inverse. rewrite E. repeat split.
  unfold Simplex_transform.
  pose proof (Simplex_shifted_input rows) as S. unfold bind in S |- *.
  destruct (reduce_max_axis1 (Matrix rows)) as [m |]; [| discriminate].
  destruct (expand_dims1 m) as [xmax |]; [| discriminate].
  destruct (tsub (Matrix rows) xmax) as [shifted |]; [| discriminate].
  change (transform Simplex_Raw) with (Chain_transform [Exp; RowNormalize]).
  unfold Chain_transform. now rewrite E.
Qed.

Lemma chains_reject_keywords_witness :
  transform (chain_transforms [Exp; RowNormalize]) (Scalar (Fin 0))
            [("clip_finite"%string, PyBool false)] = Raise TypeError
  /\ transform Simplex (Matrix [[Fin 0]]) [("clip_finite"%string, PyBool false)]
     = Raise TypeError.
Proof.
  destruct (chains_reject_keywords [Exp; RowNormalize] (Scalar (Fin 0)) [[Fin 0]]
              [("clip_finite"%string, PyBool false)] "clip_finite" (PyBool false))
    as [H1 [_ H3]].
  - left. reflexivity.
  - discriminate.
  - split; [exact H1 | exact H3].
Defined.

(* ================================================================== *)
(** * RowNormalize1 *)
(* ================================================================== *)

(** RowNormalize1.transform appends a column of ones to a matrix and
    normalizes the rows: on finite entries, where no row sums to -1,
    row r becomes r/(sum r + 1) followed by 1/(sum r + 1), and sums
    to 1.  On a vector the method raises NameError: the branch that
    handles vectors reads the name x, which is bound nowhere (the
    parameter is called x_positive). *)
Theorem RowNormalize1_transform_cases (x : list (list R)) (l : list num) (kw : kwargs) :
  Forall (fun r => Rsum r + 1 <> 0) x ->
  let y := map (fun r => map (fun v => v / (Rsum r + 1)) (r ++ [1])) x in
  RowNormalize1_transform (lift (Matrix x)) (rlj false) = Ok (Plain (lift (Matrix y)))
  /\ Forall (fun r' => Rsum r' = 1) y
  /\ RowNormalize1_transform (Vector l) kw = Raise (NameError "x").
Proof.
  intros H y. split; [| split].
  - unfold RowNormalize1_transform, reduce_sum_axis1, reduce_axis1, expand_dims1.
    cbn [lift tfmap bind]. unfold tdiv, tbin.
    set (rows := map (fun r => r ++ [Fin 1]) (map (map Fin) x)).
    rewrite (map_map sum_list), (bzip_rows_col fdiv sum_list).
    cbn [bind]. change (flag_return_log_jac (rlj false)) with (PyBool false). cbn [truthy].
    do 3 f_equal. unfold y, rows. rewrite !map_map. apply map_ext_in. intros r Hr.
    rewrite Forall_forall in H. specialize (H r Hr).
    assert (E : map Fin r ++ [Fin 1] = map Fin (r ++ [1])) by now rewrite map_app.
    rewrite E, sum_list_Fin, Rsum_app, !map_map. cbn [Rsum fold_right].
    apply map_ext. intros v. rewrite fdiv_fin; [do 2 f_equal; lra | lra].
  - unfold y. apply Forall_map. eapply Forall_impl; [| exact H].
    intros r Hr. cbv beta in Hr. rewrite Rsum_div, Rsum_app. simpl. field. lra.
  - reflexivity.
Qed.

Lemma RowNormalize1_transform_cases_witness :
  RowNormalize1_transform (lift (Matrix [[1; 2]])) (rlj false)
  = Ok (Plain (lift (Matrix (map (fun r => map (fun v => v / (Rsum r + 1)) (r ++ [1]))
                                 [[1; 2]]))))
  /\ RowNormalize1_transform (Vector [Fin 1; Fin 2]) (rlj false) = Raise (NameError "x").
Proof.
  assert (H : Forall (fun r => Rsum r + 1 <> 0) [[1; 2]]).
  { repeat constructor. simpl. lra. }
  destruct (RowNormalize1_transform_cases [[1; 2]] [Fin 1; Fin 2] (rlj false) H)
    as [H1 [_ H3]].
  split; [exact H1 | exact H3].
Defined.

(* ================================================================== *)
(** * TransformedDistribution *)
(* ================================================================== *)



(* ================================================================== *)
(** * elbow/util/dists.py: Gaussian entropy, cross-entropy and KL *)
(* ================================================================== *)

Lemma ln_le_sub1 (t : R) : 0 < t -> ln t <= t - 1.
Proof.
  intros Ht. pose proof (exp_ineq1_le (ln t)) as H. rewrite exp_ln in H by exact Ht. lra.
Qed.

Lemma ln_quot (a b : R) : 0 < a -> 0 < b -> ln (a / b) = ln a - ln b.
Proof.
  intros Ha Hb. unfold Rdiv. rewrite ln_mult, ln_Rinv; try lra.
  now apply Rinv_0_lt_compat.
Qed.

Lemma Rsum_plus {A : Type} (f g : A -> R) (l : list A) :
  Rsum (map (fun a => f a + g a) l) = Rsum (map f l) + Rsum (map g l).
Proof. induction l as [| a l IH]; simpl; [| rewrite IH]; lra. Qed.

Lemma tall_in {A : Type} (P : A -> Prop) (x : tensor_of A) :
  tall P x <-> forall a, In a (entries x) -> P a.
Proof. unfold tall. apply Forall_forall. Qed.

Ltac fuse := unfold at_entries, lift; rewrite ?tfmap_tfmap; tensor_steps.

Section SameShape.

Context {A : Type}.
Variables mp vp mq vq : A -> R.
Variable x : tensor_of A.

Lemma gaussian_kl_entries :
  tall (fun a => 0 < vp a /\ 0 < vq a) x ->
  gaussian_kl (at_entries mp x) (at_entries vp x)
              (Some (at_entries mq x)) (Some (at_entries vq x))
  = Ok (at_entries (fun a => / 2 * ((mp a - mq a) ^ 2 / vq a + vp a / vq a - 1
                                     - ln (vp a) + ln (vq a))) x).
Proof.
  intros H. unfold gaussian_kl. cbn [need_tf]. tensor_ops. fuse.
  f_equal. apply (tfmap_ext_all _ _ _ _ H). intros a [Hp Hq].
  rewrite !flog_pos by assumption. cbn [fsub fneg fadd fmul fsquare].
  rewrite !fdiv_fin by lra. cbn [fsub fneg fadd fmul]. f_equal. lra.
Qed.

Lemma gaussian_cross_entropy_entries :
  tall (fun a => 0 < vp a /\ 0 < vq a) x ->
  gaussian_cross_entropy (at_entries mp x) (at_entries vp x)
                         (at_entries mq x) (at_entries vq x)
  = Ok (at_entries (fun a => / 2 * ((mp a - mq a) ^ 2 / vq a + vp a / vq a
                                     + ln (2 * PI) + ln (vq a))) x).
Proof.
  intros H. unfold gaussian_cross_entropy, gaussian_log_density. tensor_ops. fuse.
  f_equal. apply (tfmap_ext_all _ _ _ _ H). intros a [Hp Hq].
  assert (Hpi : 0 < 2 * PI) by (pose proof PI_RGT_0; lra).
  cbn [fsub fneg fadd fmul].
  rewrite flog_pos by (apply Rmult_lt_0_compat; lra).
  rewrite !fdiv_fin by lra. cbn [fsub fneg fadd fmul]. f_equal.
  rewrite ln_mult by lra.
  replace (-0.5) with (- / 2) by lra. replace 0.5 with (/ 2) by lra. field. lra.
Qed.

Lemma gaussian_entropy_entries :
  tall (fun a => 0 < vp a) x ->
  gaussian_entropy None (Some (at_entries vp x))
  = Ok (Fin (Rsum (map (fun a => / 2 * (1 + ln (2 * PI) + ln (vp a))) (entries x)))).
Proof.
  intros H. unfold gaussian_entropy. cbn [bind]. fuse. f_equal.
  rewrite <- (reduce_sum_fin (fun a => / 2 * (1 + ln (2 * PI) + ln (vp a)))).
  f_equal. apply (tfmap_ext_all _ _ _ _ H). intros a Hp.
  rewrite flog_pos by assumption. cbn [fadd fmul]. f_equal. lra.
Qed.

End SameShape.

(** gaussian_kl, for tensors of one shape with finite entries and
    positive variances: every entry of the result is finite and not
    negative, and it is zero where the two means and the two variances
    agree. *)
Theorem gaussian_kl_nonneg {A : Type} (mp vp mq vq : A -> R) (x : tensor_of A) :
  tall (fun a => 0 < vp a /\ 0 < vq a) x ->
  exists kl : A -> R,
    gaussian_kl (at_entries mp x) (at_entries vp x)
                (Some (at_entries mq x)) (Some (at_entries vq x))
    = Ok (at_entries kl x)
    /\ tall (fun a => 0 <= kl a) x
    /\ tall (fun a => mp a = mq a -> vp a = vq a -> kl a = 0) x.
Proof.
  intros H. eexists. split; [apply gaussian_kl_entries; exact H |].
  split; apply tall_in; rewrite tall_in in H; intros a Ha; destruct (H a Ha) as [Hp Hq].
  - assert (Hsq : 0 <= (mp a - mq a) ^ 2 / vq a).
    { apply Rmult_le_pos; [apply pow2_ge_0 | left; now apply Rinv_0_lt_compat]. }
    assert (Hq' : 0 < vp a / vq a) by now apply Rdiv_lt_0_compat.
    pose proof (ln_le_sub1 _ Hq') as Hl. rewrite ln_quot in Hl by assumption. lra.
  - intros -> ->. replace (mq a - mq a) with 0 by ring.
    replace (vq a / vq a) with 1 by (field; lra).
    replace (0 ^ 2 / vq a) with 0 by (field; lra). lra.
Qed.

Lemma gaussian_kl_nonneg_witness :
  exists kl : R * R -> R,
    gaussian_kl (at_entries fst (Vector [(0, 1); (3, 2)]))
                (at_entries snd (Vector [(0, 1); (3, 2)]))
                (Some (at_entries (fun _ => 1) (Vector [(0, 1); (3, 2)])))
                (Some (at_entries (fun _ => 4) (Vector [(0, 1); (3, 2)])))
    = Ok (at_entries kl (Vector [(0, 1); (3, 2)]))
    /\ tall (fun a => 0 <= kl a) (Vector [(0, 1); (3, 2)])
    /\ tall (fun a => fst a = 1 -> snd a = 4 -> kl a = 0) (Vector [(0, 1); (3, 2)]).
Proof.
  apply (gaussian_kl_nonneg fst snd (fun _ => 1) (fun _ => 4) (Vector [(0, 1); (3, 2)])).
  unfold tall; cbn [entries fst snd].
  repeat (apply Forall_cons; [cbn [fst snd]; split; lra |]). apply Forall_nil.
Defined.

(** gaussian_kl without mu_q and sigma2_q is gaussian_kl against the
    standard normal: for finite entries it returns what it returns with
    mu_q = 0 and sigma2_q = 1 given explicitly, also where a variance of
    p is zero or negative and the result is infinite or NaN. *)
Theorem gaussian_kl_default_standard_normal {A : Type} (mp vp : A -> R) (x : tensor_of A) :
  gaussian_kl (at_entries mp x) (at_entries vp x) None None
  = gaussian_kl (at_entries mp x) (at_entries vp x)
                (Some (at_entries (fun _ => 0) x)) (Some (at_entries (fun _ => 1) x)).
Proof.
  unfold gaussian_kl. cbn [need_tf]. tensor_ops. fuse.
  f_equal. apply tfmap_ext. intros a.
  rewrite (flog_pos 1) by lra. rewrite ln_1.
  cbn [fsub fneg fadd fmul fsquare]. rewrite !fdiv_fin by lra.
  destruct (flog (Fin (vp a))) as [l | | |]; cbn [fsub fneg fadd fmul]; try reflexivity.
  f_equal. field.
Qed.

(** The three Gaussian functions agree with each other: for tensors of
    one shape with finite entries and positive variances, the sum of
    gaussian_cross_entropy(p, q) is gaussian_entropy of p plus the sum
    of gaussian_kl(p, q); so the cross-entropy of p with itself sums to
    its entropy. *)
Theorem gaussian_cross_entropy_is_entropy_plus_kl {A : Type} (mp vp mq vq : A -> R)
    (x : tensor_of A) :
  tall (fun a => 0 < vp a /\ 0 < vq a) x ->
  exists (c k c' : tensor) (h : num),
    gaussian_cross_entropy (at_entries mp x) (at_entries vp x)
                           (at_entries mq x) (at_entries vq x) = Ok c
    /\ gaussian_kl (at_entries mp x) (at_entries vp x)
                   (Some (at_entries mq x)) (Some (at_entries vq x)) = Ok k
    /\ gaussian_entropy None (Some (at_entries vp x)) = Ok h
    /\ reduce_sum c = fadd h (reduce_sum k)
    /\ gaussian_cross_entropy (at_entries mp x) (at_entries vp x)
                              (at_entries mp x) (at_entries vp x) = Ok c'
    /\ reduce_sum c' = h.
Proof.
  intros H.
  assert (Hp : tall (fun a => 0 < vp a) x).
  { apply tall_in. rewrite tall_in in H. intros a Ha. apply (H a Ha). }
  assert (Hpp : tall (fun a => 0 < vp a /\ 0 < vp a) x).
  { apply tall_in. rewrite tall_in in Hp. intros a Ha. split; apply (Hp a Ha). }
  do 4 eexists.
  split; [apply gaussian_cross_entropy_entries; exact H |].
  split; [apply gaussian_kl_entries; exact H |].
  split; [apply gaussian_entropy_entries; exact Hp |].
  split; [| split; [apply gaussian_cross_entropy_entries; exact Hpp |]].
  - unfold at_entries. rewrite !reduce_sum_lift, !entries_tfmap. cbn [fadd].
    f_equal. rewrite <- Rsum_plus. apply f_equal, map_ext_in. intros a Ha.
    rewrite tall_in in H. destruct (H a Ha) as [Ha1 Ha2]. lra.
  - unfold at_entries. rewrite !reduce_sum_lift, !entries_tfmap.
    apply f_equal, f_equal, map_ext_in. intros a Ha.
    rewrite tall_in in Hp. specialize (Hp a Ha).
    replace (mp a - mp a) with 0 by ring.
    replace (vp a / vp a) with 1 by (field; lra).
    replace (0 ^ 2 / vp a) with 0 by (field; lra). lra.
Qed.

Lemma gaussian_cross_entropy_is_entropy_plus_kl_witness :
  exists (c k c' : tensor) (h : num),
    gaussian_cross_entropy (at_entries fst (Vector [(0, 1); (3, 2)]))
                           (at_entries snd (Vector [(0, 1); (3, 2)]))
                           (at_entries (fun _ => 1) (Vector [(0, 1); (3, 2)]))
                           (at_entries (fun _ => 4) (Vector [(0, 1); (3, 2)])) = Ok c
    /\ gaussian_kl (at_entries fst (Vector [(0, 1); (3, 2)]))
                   (at_entries snd (Vector [(0, 1); (3, 2)]))
                   (Some (at_entries (fun _ => 1) (Vector [(0, 1); (3, 2)])))
                   (Some (at_entries (fun _ => 4) (Vector [(0, 1); (3, 2)]))) = Ok k
    /\ gaussian_entropy None (Some (at_entries snd (Vector [(0, 1); (3, 2)]))) = Ok h
    /\ reduce_sum c = fadd h (reduce_sum k)
    /\ gaussian_cross_entropy (at_entries fst (Vector [(0, 1); (3, 2)]))
                              (at_entries snd (Vector [(0, 1); (3, 2)]))
                              (at_entries fst (Vector [(0, 1); (3, 2)]))
                              (at_entries snd (Vector [(0, 1); (3, 2)])) = Ok c'
    /\ reduce_sum c' = h.
Proof.
  apply (gaussian_cross_entropy_is_entropy_plus_kl fst snd (fun _ => 1) (fun _ => 4)
           (Vector [(0, 1); (3, 2)])).
  unfold tall; cbn [entries fst snd].
  repeat (apply Forall_cons; [cbn [fst snd]; split; lra |]). apply Forall_nil.
Defined.

(* ================================================================== *)
(** * elbow/util/dists.py: the Bernoulli and multinomial functions *)
(* ================================================================== *)

Lemma ln_clip_nonpos (r : R) : ln 1e-37 <= ln (Rclip 1e-37 1 r) <= 0.
Proof.
  pose proof (Rclip_bounds 1e-37 1 r ltac:(lra)) as Hb. split.
  - apply ln_mono; lra.
  - rewrite <- ln_1. apply ln_mono; lra.
Qed.

Lemma flog_clip (r : R) : flog (fclip 1e-37 1 (Fin r)) = Fin (ln (Rclip 1e-37 1 r)).
Proof. rewrite fclip_fin. apply flog_pos. apply Rclip_pos; lra. Qed.

Lemma bernoulli_entropy_entries {A : Type} (z p : A -> R) (x : tensor_of A) :
  bernoulli_entropy (at_entries z x) (Some (at_entries p x)) (PyBool true)
  = Ok (at_entries (fun a => - z a * ln (Rclip 1e-37 1 (p a))
                             - (1 - z a) * ln (Rclip 1e-37 1 (1 - p a))) x).
Proof.
  unfold bernoulli_entropy. cbn [truthy]. tensor_ops. fuse.
  apply f_equal, tfmap_ext. intros a.
  cbn [fsub fneg fadd]. rewrite !flog_clip. reflexivity.
Qed.

Lemma bernoulli_log_density_entries {A : Type} (z p : A -> R) (x : tensor_of A) :
  bernoulli_log_density (at_entries z x) (at_entries p x) (PyBool true)
  = Ok (at_entries (fun a => z a * ln (Rclip 1e-37 1 (p a))
                             + (1 - z a) * ln (Rclip 1e-37 1 (1 - p a))) x).
Proof.
  unfold bernoulli_log_density. cbn [truthy]. tensor_ops. fuse.
  apply f_equal, tfmap_ext. intros a.
  cbn [fsub fneg fadd]. rewrite !flog_clip. reflexivity.
Qed.

(** bernoulli_entropy with its default clipping is finite on every
    tensor of finite entries; on probabilities (entries between 0 and 1)
    it is not negative, and it is exactly 0 at the probabilities 0 and
    1, where the unclipped formula has 0 * log 0. *)
Theorem bernoulli_entropy_clipped (p : tensor_of R) :
  exists h : R -> R,
    bernoulli_entropy (lift p) None (PyBool true) = Ok (at_entries h p)
    /\ (forall r, 0 <= r <= 1 -> 0 <= h r)
    /\ h 0 = 0 /\ h 1 = 0.
Proof.
  exists (fun r => - r * ln (Rclip 1e-37 1 r) - (1 - r) * ln (Rclip 1e-37 1 (1 - r))).
  split; [| split; [| split]].
  - pose proof (bernoulli_entropy_entries (fun r => r) (fun r => r) p) as E.
    unfold at_entries in E. rewrite tfmap_id in E.
    unfold bernoulli_entropy in E |- *. exact E.
  - intros r Hr. pose proof (ln_clip_nonpos r) as [_ H1].
    pose proof (ln_clip_nonpos (1 - r)) as [_ H2]. nra.
  - replace (1 - 0) with 1 by ring. rewrite (Rclip_id 1e-37 1 1) by lra. rewrite ln_1. ring.
  - replace (1 - 1) with 0 by ring. rewrite (Rclip_id 1e-37 1 1) by lra. rewrite ln_1. ring.
Qed.

(** bernoulli_kl with its default clipping, on tensors of one shape
    with finite entries: KL(p, p) = 0 at every entry, the probabilities 0
    and 1 included; and where p and q both lie in [1e-37, 1 - 1e-37], so
    that nothing is clipped, the entry is not negative. *)
Theorem bernoulli_kl_clipped {A : Type} (p q : A -> R) (x : tensor_of A) :
  exists kl : A -> R,
    bernoulli_kl (at_entries p x) (at_entries q x) (PyBool true) = Ok (at_entries kl x)
    /\ (forall a, p a = q a -> kl a = 0)
    /\ (forall a, 1e-37 <= p a <= 1 - 1e-37 -> 1e-37 <= q a <= 1 - 1e-37 -> 0 <= kl a).
Proof.
  exists (fun a => p a * (ln (Rclip 1e-37 1 (p a)) - ln (Rclip 1e-37 1 (q a)))
                   + (1 - p a) * (ln (Rclip 1e-37 1 (1 - p a))
                                  - ln (Rclip 1e-37 1 (1 - q a)))).
  split; [| split].
  - unfold bernoulli_kl. cbn [truthy]. tensor_ops. fuse.
    apply f_equal, tfmap_ext. intros a.
    cbn [fsub fneg fadd]. rewrite !flog_clip. reflexivity.
  - intros a ->. ring.
  - intros a Hp Hq. rewrite !Rclip_id by lra.
    assert (H1 : p a * (ln (q a) - ln (p a)) <= q a - p a).
    { rewrite <- ln_quot by lra.
      apply Rle_trans with (p a * (q a / p a - 1)).
      - apply Rmult_le_compat_l; [lra |]. apply ln_le_sub1. apply Rdiv_lt_0_compat; lra.
      - right. field. lra. }
    assert (H2 : (1 - p a) * (ln (1 - q a) - ln (1 - p a)) <= (1 - q a) - (1 - p a)).
    { rewrite <- ln_quot by lra.
      apply Rle_trans with ((1 - p a) * ((1 - q a) / (1 - p a) - 1)).
      - apply Rmult_le_compat_l; [lra |]. apply ln_le_sub1. apply Rdiv_lt_0_compat; lra.
      - right. field. lra. }
    lra.
Qed.

(* ================================================================== *)
(** * elbow/elementary.py: BernoulliMatrix and MultinomialMatrix *)
(* ================================================================== *)

(** BernoulliMatrix._logp is finite and never positive on values
    between 0 and 1 (samples are 0 or 1), whatever finite parameter p it
    is given: every entry is at least log(1e-37), also for a value 1
    under p = 0.  BernoulliMatrix._entropy is not negative for
    probabilities p. *)
Theorem BernoulliMatrix_logp_bounded {A : Type} (z p : A -> R) (x : tensor_of A) :
  tall (fun a => 0 <= z a <= 1) x ->
  exists lp h : R,
    BernoulliMatrix_logp (at_entries z x) (at_entries p x) = Ok (Fin lp)
    /\ INR (List.length (entries x)) * ln 1e-37 <= lp <= 0
    /\ BernoulliMatrix_entropy (at_entries p x) = Ok (Fin h)
    /\ (tall (fun a => 0 <= p a <= 1) x -> 0 <= h).
Proof.
  intros Hz. unfold BernoulliMatrix_logp, BernoulliMatrix_entropy.
  rewrite bernoulli_log_density_entries.
  pose proof (bernoulli_entropy_entries p p x) as E.
  unfold bernoulli_entropy in E |- *. rewrite E. clear E. cbn [bind].
  unfold at_entries. rewrite !reduce_sum_lift, !entries_tfmap.
  do 2 eexists. split; [reflexivity |]. split; [| split; [reflexivity |]].
  - rewrite tall_in in Hz. induction (entries x) as [| a l IH].
    + simpl. lra.
    + cbn [map List.length]. rewrite S_INR.
      change (Rsum (?u :: ?v)) with (u + Rsum v).
      assert (Hl : forall b, In b l -> 0 <= z b <= 1) by (intros b Hb; apply Hz; now right).
      specialize (IH Hl). specialize (Hz a (or_introl eq_refl)).
      pose proof (ln_clip_nonpos (p a)) as H1.
      pose proof (ln_clip_nonpos (1 - p a)) as H2.
      assert (Hn : ln 1e-37 <= 0) by lra.
      nra.
  - intros Hp. rewrite tall_in in Hp. induction (entries x) as [| a l IH].
    + simpl. lra.
    + cbn [map]. change (Rsum (?u :: ?v)) with (u + Rsum v).
      assert (Hl : forall b, In b l -> 0 <= p b <= 1) by (intros b Hb; apply Hp; now right).
      specialize (IH Hl). specialize (Hp a (or_introl eq_refl)).
      pose proof (ln_clip_nonpos (p a)) as H1.
      pose proof (ln_clip_nonpos (1 - p a)) as H2.
      nra.
Qed.

Lemma BernoulliMatrix_logp_bounded_witness :
  exists lp h : R,
    BernoulliMatrix_logp (at_entries fst (Vector [(1, 0); (0, 1 / 2)]))
                         (at_entries snd (Vector [(1, 0); (0, 1 / 2)])) = Ok (Fin lp)
    /\ INR (List.length (entries (Vector [(1, 0); (0, 1 / 2)]))) * ln 1e-37 <= lp <= 0
    /\ BernoulliMatrix_entropy (at_entries snd (Vector [(1, 0); (0, 1 / 2)])) = Ok (Fin h)
    /\ (tall (fun a => 0 <= snd a <= 1) (Vector [(1, 0); (0, 1 / 2)]) -> 0 <= h).
Proof.
  apply (BernoulliMatrix_logp_bounded fst snd (Vector [(1, 0); (0, 1 / 2)])).
  unfold tall; cbn [entries].
  repeat (apply Forall_cons; [cbn [fst snd]; lra |]). apply Forall_nil.
Defined.

(** BernoulliMatrix._expected_logp: when the posterior q of the value
    has an attribute p, the method returns -sum bernoulli_entropy(q.p,
    cross_q = p_z), which is BernoulliMatrix._logp evaluated at the
    probabilities q.p in place of a sample; when q has no attribute p,
    the except branch returns _logp at q._sampled. *)
Theorem BernoulliMatrix_expected_logp_branches {A : Type} (z p : A -> R) (x : tensor_of A)
    (q_result q_p : obj) :
  getattr (Some q_p) "_sampled" = Ok (at_entries p x) ->
  (getattr (Some q_result) "p" = Ok (at_entries z x) ->
   BernoulliMatrix_expected_logp q_result (Some q_p)
   = BernoulliMatrix_logp (at_entries z x) (at_entries p x))
  /\ (getattr (Some q_result) "p" = Raise (AttributeError "p") ->
      BernoulliMatrix_expected_logp q_result (Some q_p)
      = (r <- getattr (Some q_result) "_sampled" ;;
         BernoulliMatrix_logp r (at_entries p x))).
Proof.
  intros Hp. unfold BernoulliMatrix_expected_logp. rewrite Hp. cbn [bind].
  split; intros Hz; rewrite Hz; cbn [bind]; [| reflexivity].
  unfold BernoulliMatrix_logp.
  rewrite bernoulli_entropy_entries, bernoulli_log_density_entries. cbn [bind].
  unfold at_entries. rewrite !reduce_sum_lift, !entries_tfmap. cbn [fneg].
  do 2 f_equal. rewrite <- Rsum_opp. f_equal. apply map_ext. intros a. ring.
Qed.

Lemma BernoulliMatrix_expected_logp_branches_witness :
  BernoulliMatrix_expected_logp
    [("p"%string, at_entries fst (Vector [(1 / 4, 1 / 2)]))]
    (Some [("_sampled"%string, at_entries snd (Vector [(1 / 4, 1 / 2)]))])
  = BernoulliMatrix_logp (at_entries fst (Vector [(1 / 4, 1 / 2)]))
                         (at_entries snd (Vector [(1 / 4, 1 / 2)])).
Proof.
  apply (BernoulliMatrix_expected_logp_branches fst snd (Vector [(1 / 4, 1 / 2)])
           [("p"%string, at_entries fst (Vector [(1 / 4, 1 / 2)]))]
           [("_sampled"%string, at_entries snd (Vector [(1 / 4, 1 / 2)]))]);
    reflexivity.
Defined.

(** MultinomialMatrix._expected_logp returns the sum of
    multinomial_entropy(q, cross_q = p), that is -sum q * log p with p
    clipped to [1e-37, 1], without the negation that
    BernoulliMatrix._expected_logp applies: for a matrix q of entries
    that are not negative the value it returns is not negative. *)
Theorem MultinomialMatrix_expected_logp_nonneg {A : Type} (q p : A -> R)
    (rows : list (list A)) (q_result q_p : obj) :
  getattr (Some q_p) "_sampled" = Ok (at_entries p (Matrix rows)) ->
  getattr (Some q_result) "p" = Ok (at_entries q (Matrix rows)) ->
  MultinomialMatrix_expected_logp q_result (Some q_p)
  = Ok (Fin (- Rsum (map (fun a => q a * ln (Rclip 1e-37 1 (p a))) (concat rows))))
  /\ (tall (fun a => 0 <= q a) (Matrix rows) ->
      0 <= - Rsum (map (fun a => q a * ln (Rclip 1e-37 1 (p a))) (concat rows))).
Proof.
  intros Hp Hq. unfold MultinomialMatrix_expected_logp. rewrite Hp, Hq. cbn [bind].
  split.
  - unfold multinomial_entropy. cbn [truthy]. tensor_ops. fuse.
    cbn [tfmap reduce_sum_axis1 reduce_axis1 bind tmap reduce_sum].
    rewrite !map_map. apply f_equal. clear Hp Hq.
    induction rows as [| r rows IH]; [simpl; f_equal; lra |].
    cbn [map concat]. rewrite sum_list_cons, IH, map_app, Rsum_app.
    assert (E : map (fun a => fmul (Fin (q a)) (flog (fclip 1e-37 1 (Fin (p a))))) r
                = map (fun a => Fin (q a * ln (Rclip 1e-37 1 (p a)))) r).
    { apply map_ext. intros a. now rewrite flog_clip. }
    rewrite E, (sum_list_fin (fun a => q a * ln (Rclip 1e-37 1 (p a)))).
    cbn [fneg fadd]. f_equal. lra.
  - intros Hq0. unfold tall in Hq0. cbn [entries] in Hq0.
    induction (concat rows) as [| a l IH]; [simpl; lra |].
    cbn [map]. change (Rsum (?u :: ?v)) with (u + Rsum v).
    pose proof (Forall_inv Hq0) as Ha. specialize (IH (Forall_inv_tail Hq0)).
    cbv beta in Ha. pose proof (ln_clip_nonpos (p a)) as H1. nra.
Qed.

Lemma MultinomialMatrix_expected_logp_nonneg_witness :
  MultinomialMatrix_expected_logp
    [("p"%string, at_entries fst (Matrix [[(1, 1 / 2); (0, 1 / 2)]]))]
    (Some [("_sampled"%string, at_entries snd (Matrix [[(1, 1 / 2); (0, 1 / 2)]]))])
  = Ok (Fin (- Rsum (map (fun a => fst a * ln (Rclip 1e-37 1 (snd a)))
                         (concat [[(1, 1 / 2); (0, 1 / 2)]])))).
Proof.
  apply (MultinomialMatrix_expected_logp_nonneg fst snd [[(1, 1 / 2); (0, 1 / 2)]]
           [("p"%string, at_entries fst (Matrix [[(1, 1 / 2); (0, 1 / 2)]]))]
           [("_sampled"%string, at_entries snd (Matrix [[(1, 1 / 2); (0, 1 / 2)]]))]);
    reflexivity.
Defined.

(* ================================================================== *)
(** * elbow/elementary.py: ContinuousUniform, Gaussian, Laplace, MVGaussian *)
(* ================================================================== *)

(** ContinuousUniform._sample maps noise u in [0, 1] to
    u * (max - min) + min, which lies between the bounds where
    min <= max; _compute_shape returns the common shape of the two
    bounds and fails its assertion when they differ. *)
Theorem ContinuousUniform_sample_in_range {A : Type} (u mn mx : A -> R) (x : tensor_of A)
    (s1 s2 : shape) :
  exists smp : A -> R,
    ContinuousUniform_sample (at_entries u x) (at_entries mn x) (at_entries mx x)
    = Ok (at_entries smp x)
    /\ (forall a, 0 <= u a <= 1 -> mn a <= mx a -> mn a <= smp a <= mx a)
    /\ ContinuousUniform_compute_shape s1 s1 = Ok s1
    /\ (s1 <> s2 -> ContinuousUniform_compute_shape s1 s2 = Raise AssertionError).
Proof.
  exists (fun a => u a * (mx a - mn a) + mn a). split; [| split; [| split]].
  - unfold ContinuousUniform_sample. tensor_ops. fuse. reflexivity.
  - intros a Hu Hm. nra.
  - unfold ContinuousUniform_compute_shape. now destruct (list_eq_dec Nat.eq_dec s1 s1).
  - intros Hne. unfold ContinuousUniform_compute_shape.
    now destruct (list_eq_dec Nat.eq_dec s1 s2).
Qed.

(** The density of a Gaussian sample does not depend on the mean:
    Gaussian._logp at Gaussian._sample, drawn with the noise eps, is
    sum(-eps^2/2 - log(2 pi std^2)/2), for finite entries and std
    different from 0.  derived_parameters gives the variance std^2. *)
Theorem Gaussian_logp_of_sample {A : Type} (eps mean std : A -> R) (x : tensor_of A) :
  tall (fun a => std a <> 0) x ->
  exists s : tensor,
    Gaussian_sample (at_entries eps x) (at_entries mean x) (at_entries std x) = Ok s
    /\ Gaussian._logp s (at_entries mean x) (at_entries std x)
       = Ok (Fin (Rsum (map (fun a => - (eps a) ^ 2 / 2 - ln (2 * PI * (std a) ^ 2) / 2)
                            (entries x))))
    /\ Gaussian_derived_parameters (at_entries mean x) (at_entries std x)
       = [("variance"%string, at_entries (fun a => (std a) ^ 2) x)].
Proof.
  intros H. eexists. split; [| split].
  - unfold Gaussian_sample. tensor_ops. fuse. reflexivity.
  - unfold Gaussian._logp, gaussian_log_density. cbn [need bind]. tensor_ops. fuse.
    apply f_equal.
    rewrite <- (reduce_sum_fin (fun a => - (eps a) ^ 2 / 2 - ln (2 * PI * (std a) ^ 2) / 2)).
    apply f_equal. apply (tfmap_ext_all _ _ _ _ H). intros a Ha.
    assert (Hv : 0 < std a * std a) by nra.
    assert (Hpi : 0 < 2 * PI) by (pose proof PI_RGT_0; lra).
    cbn [fsub fneg fadd fmul].
    rewrite fdiv_fin by lra. cbn [fmul].
    rewrite flog_pos by (apply Rmult_lt_0_compat; lra).
    cbn [fsub fneg fadd fmul]. f_equal.
    replace (2 * PI * std a ^ 2) with (2 * PI * (std a * std a)) by ring.
    replace (-0.5) with (- / 2) by lra. replace 0.5 with (/ 2) by lra. field. lra.
  - unfold Gaussian_derived_parameters. fuse. do 2 f_equal.
    apply tfmap_ext. intros a. cbn [fsquare fmul]. f_equal. ring.
Qed.

Lemma Gaussian_logp_of_sample_witness :
  exists s : tensor,
    Gaussian_sample (at_entries (fun _ => 1) (Vector [(0, 1); (5, 2)]))
                    (at_entries fst (Vector [(0, 1); (5, 2)]))
                    (at_entries snd (Vector [(0, 1); (5, 2)])) = Ok s
    /\ Gaussian._logp s (at_entries fst (Vector [(0, 1); (5, 2)]))
                        (at_entries snd (Vector [(0, 1); (5, 2)]))
       = Ok (Fin (Rsum (map (fun a => - 1 ^ 2 / 2 - ln (2 * PI * (snd a) ^ 2) / 2)
                            (entries (Vector [(0, 1); (5, 2)])))))
    /\ Gaussian_derived_parameters (at_entries fst (Vector [(0, 1); (5, 2)]))
                                   (at_entries snd (Vector [(0, 1); (5, 2)]))
       = [("variance"%string, at_entries (fun a => (snd a) ^ 2) (Vector [(0, 1); (5, 2)]))].
Proof.
  apply (Gaussian_logp_of_sample (fun _ => 1) fst snd (Vector [(0, 1); (5, 2)])).
  unfold tall; cbn [entries].
  repeat (apply Forall_cons; [cbn [fst snd]; lra |]). apply Forall_nil.
Defined.

Lemma sum_list_repeat (c : R) (n : nat) :
  sum_list (repeat (Fin c) n) = Fin (INR n * c).
Proof.
  induction n as [| n IH]; [simpl; f_equal; lra |].
  cbn [repeat]. rewrite sum_list_cons, IH, S_INR. cbn [fadd]. f_equal. lra.
Qed.

(** Gaussian._entropy with a scalar std s: the entropy of one entry,
    (1 + log(2 pi) + log(s^2))/2, is counted once for every entry of
    the node's shape, n times for a vector of n entries and n*k times
    for an n-by-k matrix. *)
Theorem Gaussian_entropy_counts_entries (n k : nat) (s : R) :
  s <> 0 ->
  let h := / 2 * (1 + ln (2 * PI) + ln (s * s)) in
  Gaussian_entropy [] (Scalar (Fin s)) = Ok (Fin h)
  /\ Gaussian_entropy [n] (Scalar (Fin s)) = Ok (Fin (INR n * h))
  /\ Gaussian_entropy [n; k] (Scalar (Fin s)) = Ok (Fin (INR n * (INR k * h))).
Proof.
  intros Hs h.
  assert (Hv : 0 < s * s) by nra.
  assert (E : fmul (Fin 0.5)
                    (fadd (Fin (1 + ln (2 * PI))) (flog (fmul (Fin 1) (fsquare (Fin s)))))
              = Fin h).
  { cbn [fmul fsquare]. rewrite flog_pos by lra. cbn [fadd fmul]. unfold h. f_equal.
    replace (1 * (s * s)) with (s * s) by ring. lra. }
  unfold Gaussian_entropy, gaussian_entropy.
  split; [| split].
  - unfold tmul. cbn [ones tbin tmap tfmap bind reduce_sum]. now rewrite E.
  - unfold tmul. cbn [ones tbin tmap tfmap bind reduce_sum].
    rewrite !map_repeat, E. now rewrite sum_list_repeat.
  - unfold tmul. cbn [ones tbin tmap tfmap bind reduce_sum].
    rewrite !map_repeat, E, sum_list_repeat. now rewrite sum_list_repeat.
Qed.

Lemma Gaussian_entropy_counts_entries_witness :
  Gaussian_entropy [3%nat] (Scalar (Fin 2))
  = Ok (Fin (INR 3 * (/ 2 * (1 + ln (2 * PI) + ln (2 * 2))))).
Proof.
  apply (Gaussian_entropy_counts_entries 3 0 2). lra.
Defined.

(** Laplace._logp returns sum(log(2 scale)) - sum(|result - loc| / scale)
    for finite entries and positive scales: the logarithm of the
    normalizing constant 2*scale is added, not subtracted.  At
    result = loc the value is sum(log(2 scale)), which is
    Laplace._entropy minus 1. *)
Theorem Laplace_logp_value {A : Type} (r loc scale : A -> R) (x : tensor_of A) :
  tall (fun a => 0 < scale a) x ->
  Laplace_logp (at_entries r x) (at_entries loc x) (at_entries scale x)
  = Ok (Fin (Rsum (map (fun a => ln (2 * scale a) - Rabs (r a - loc a) / scale a)
                       (entries x))))
  /\ Laplace_logp (at_entries loc x) (at_entries loc x) (at_entries scale x)
     = Ok (fsub (Laplace._entropy (at_entries loc x) (at_entries scale x)) (Fin 1)).
Proof.
  intros H.
  assert (E : forall r', Laplace_logp (at_entries r' x) (at_entries loc x) (at_entries scale x)
              = Ok (Fin (Rsum (map (fun a => ln (2 * scale a) - Rabs (r' a - loc a) / scale a)
                                   (entries x))))).
  { intros r'. unfold Laplace_logp. tensor_ops. fuse. apply f_equal.
    rewrite (tfmap_ext_all _ _
               (fun a => Fin (Rabs (r' a - loc a) / scale a - ln (2 * scale a))) _ H).
    - rewrite (reduce_sum_fin (fun a => Rabs (r' a - loc a) / scale a - ln (2 * scale a))).
      cbn [fneg]. f_equal. rewrite <- Rsum_opp. apply Rsum_ext_in. intros a _. lra.
    - intros a Ha. cbn [fsub fneg fadd fabs fmul]. rewrite fdiv_fin, flog_pos by lra.
      reflexivity. }
  split; [apply E |]. rewrite E. apply f_equal.
  unfold Laplace._entropy. fuse.
  rewrite (tfmap_ext_all _ _ (fun a => Fin (ln (2 * scale a))) _ H).
  - rewrite (reduce_sum_fin (fun a => ln (2 * scale a))).
    cbn [fsub fneg fadd]. f_equal.
    rewrite (Rsum_ext_in _ (fun a => ln (2 * scale a))); [lra |].
    intros a Ha. replace (loc a - loc a) with 0 by ring. rewrite Rabs_R0.
    unfold Rdiv. ring.
  - intros a Ha. cbn [fmul]. now rewrite flog_pos by lra.
Qed.

Lemma Laplace_logp_value_witness :
  Laplace_logp (at_entries (fun _ => 0) (Vector [(0, 1); (1, 1)]))
               (at_entries fst (Vector [(0, 1); (1, 1)]))
               (at_entries snd (Vector [(0, 1); (1, 1)]))
  = Ok (Fin (Rsum (map (fun a => ln (2 * snd a) - Rabs (0 - fst a) / snd a)
                       (entries (Vector [(0, 1); (1, 1)]))))).
Proof.
  apply (Laplace_logp_value (fun _ => 0) fst snd (Vector [(0, 1); (1, 1)])).
  unfold tall; cbn [entries].
  repeat (apply Forall_cons; [cbn [fst snd]; lra |]). apply Forall_nil.
Defined.

(** Laplace._sample, as a function of the uniform noise u: for
    0 < u <= 1/2 it returns loc - scale * log(2u), for 1/2 <= u < 1 it
    returns loc + scale * log(2(1 - u)), so the sample is finite and the
    samples at u and 1 - u mirror each other about loc; at u = 0, which
    the noise range [0, 1) contains, it returns +infinity for a positive
    scale. *)
Theorem Laplace_sample_values {A : Type} (u loc scale : A -> R) (x : tensor_of A) :
  exists smp : A -> num,
    Laplace_sample (at_entries u x) (at_entries loc x) (at_entries scale x)
    = Ok (tfmap smp x)
    /\ forall a,
         (0 < u a <= 1 / 2 -> smp a = Fin (loc a - scale a * ln (2 * u a)))
         /\ (1 / 2 <= u a < 1 -> smp a = Fin (loc a + scale a * ln (2 * (1 - u a))))
         /\ (u a = 0 -> 0 < scale a -> smp a = PInf).
Proof.
  eexists. split.
  - unfold Laplace_sample. tensor_ops. fuse. reflexivity.
  - intros a. cbn [fsub fneg fadd fabs fmul].
    set (b := u a + _). assert (Hb : b = u a - 1 / 2) by (unfold b; lra). clearbody b.
    unfold fsign. split; [| split].
    + intros Hu. destruct (Req_dec (u a) (1 / 2)) as [E | E].
      * assert (b = 0) as -> by lra.
        rewrite Rcmp_Eq, Rabs_R0. rewrite flog_pos by lra. cbn [fmul fadd]. f_equal.
        replace (1 + - (2 * 0)) with 1 by ring. replace (2 * u a) with 1 by lra.
        rewrite ln_1. ring.
      * rewrite Rcmp_Lt by lra. rewrite Rabs_left by lra.
        rewrite flog_pos by lra. cbn [fmul fadd]. f_equal.
        replace (1 + - (2 * - b)) with (2 * u a) by lra. ring.
    + intros Hu. destruct (Req_dec (u a) (1 / 2)) as [E | E].
      * assert (b = 0) as -> by lra.
        rewrite Rcmp_Eq, Rabs_R0. rewrite flog_pos by lra. cbn [fmul fadd]. f_equal.
        replace (1 + - (2 * 0)) with 1 by ring. replace (2 * (1 - u a)) with 1 by lra.
        rewrite ln_1. ring.
      * rewrite Rcmp_Gt by lra. rewrite Rabs_right by lra.
        rewrite flog_pos by lra. cbn [fmul fadd]. f_equal.
        replace (1 + - (2 * b)) with (2 * (1 - u a)) by lra. ring.
    + intros E Hs.
      rewrite Rcmp_Lt by lra. rewrite Rabs_left by lra.
      replace (1 + - (2 * - b)) with 0 by lra.
      rewrite flog_zero. cbn [fmul]. rewrite Rcmp_Gt by lra. cbn [inf_of_sign fmul].
      rewrite Rcmp_Gt by lra. reflexivity.
Qed.

(** MVGaussian._logp raises NameError on every call: it calls
    multivariate_gaussian_log_density by its bare name, and elementary.py
    binds no such name (the module imports elbow.util as util and
    nothing from elbow.util.dists). *)
Theorem MVGaussian_logp_raises_NameError
    (density : tensor -> tensor -> tensor -> result num) (result' mean cov : tensor) :
  MVGaussian_logp density result' mean cov
  = Raise (NameError "multivariate_gaussian_log_density").
Proof. reflexivity. Qed.

(* ================================================================== *)
(** * UnaryTransform: the declared shape and the shape of the sample *)
(* ================================================================== *)

Lemma extract_shape_tmap (f : num -> num) (t : tensor) :
  extract_shape (tmap f t) = extract_shape t.
Proof.
  destruct t as [v | l | rows]; cbn [tmap tfmap extract_shape].
  - reflexivity.
  - now rewrite length_map.
  - rewrite length_map. destruct rows as [| r rows]; [reflexivity |].
    cbn [map]. now rewrite length_map.
Qed.

Lemma extract_shape_rows (f : list num -> list num) (rows : list (list num)) :
  (forall r, List.length (f r) = List.length r) ->
  extract_shape (Matrix (map f rows)) = extract_shape (Matrix rows).
Proof.
  intros H. cbn [extract_shape]. rewrite length_map.
  destruct rows as [| r rows]; [reflexivity |]. cbn [map]. now rewrite H.
Qed.

Ltac pointwise_shape :=
  eexists; split; [reflexivity |];
  change (flag_clip_finite []) with (PyBool true); cbn [truthy];
  unfold clip_by_value; rewrite ?extract_shape_tmap; reflexivity.

(** UnaryTransform._compute_shape agrees with UnaryTransform._sample:
    for a matrix with at least one row and one column and each of the
    transforms Exp, Log1Exp, Square, Reciprocal, Logit, RowNormalize,
    Transpose and Simplex, _sample returns a tensor, and its shape is
    the one that _compute_shape derives from the shape of the parent. *)
Theorem UnaryTransform_shape_agrees (n k : nat) (rows : list (list num)) (T : Transform) :
  rectangular n k rows -> (1 <= n)%nat -> (1 <= k)%nat ->
  In T [Exp; Log1Exp; Square; Reciprocal; Logit; RowNormalize; Transpose; Simplex] ->
  exists y,
    UnaryTransform_sample T (Matrix rows) = Ok (Plain y)
    /\ UnaryTransform_compute_shape T (extract_shape (Matrix rows)) = Ok (extract_shape y).
Proof.
  intros Hrect Hn Hk HT. unfold UnaryTransform_sample, UnaryTransform_compute_shape.
  cbn [In] in HT.
  destruct HT as [<- | [<- | [<- | [<- | [<- | [<- | [<- | [<- | []]]]]]]]].
  - pointwise_shape.
  - pointwise_shape.
  - pointwise_shape.
  - pointwise_shape.
  - pointwise_shape.
  - eexists. split.
    + change (transform RowNormalize (Matrix rows) []) with
        (RowNormalize_transform (Matrix rows) (rlj false)).
      apply RowNormalize_transform_matrix.
    + cbn [output_shape RowNormalize]. unfold Transform_output_shape.
      apply f_equal. symmetry.
      apply extract_shape_rows. intros r. apply length_map.
  - eexists. split; [reflexivity |].
    destruct Hrect as [Hlen Hrows]. destruct rows as [| r rows]; [simpl in Hlen; lia |].
    pose proof (Forall_inv Hrows) as Hr.
    cbn [extract_shape output_shape Transpose SelfInverseTransform Transpose_output_shape
         transpose].
    rewrite Hr. destruct k as [| k]; [lia |]. cbn [transpose_rows List.length].
    rewrite length_map, length_transpose_rows. reflexivity.
  - eexists. split; [apply Simplex_transform_matrix |].
    cbn [output_shape Simplex]. unfold Transform_output_shape. apply f_equal. symmetry.
    apply extract_shape_rows. intros r. cbv zeta. now rewrite !length_map.
Qed.

Lemma UnaryTransform_shape_agrees_witness :
  exists y,
    UnaryTransform_sample Transpose (Matrix [[Fin 1; Fin 2; Fin 3]; [Fin 4; Fin 5; Fin 6]])
    = Ok (Plain y)
    /\ UnaryTransform_compute_shape Transpose
         (extract_shape (Matrix [[Fin 1; Fin 2; Fin 3]; [Fin 4; Fin 5; Fin 6]]))
       = Ok (extract_shape y).
Proof.
  apply (UnaryTransform_shape_agrees 2 3).
  - split; [reflexivity |]. repeat constructor.
  - lia.
  - lia.
  - cbn [In]. tauto.
Defined.

(* ================================================================== *)
(** * elbow/models/neural.py: NeuralBernoulliTransform *)
(* ================================================================== *)












(* ================================================================== *)
(** * TransformedDistribution: sampling and density together *)
(* ================================================================== *)


